(** * hack-the-future: user profile controller, users schema and team routes

    A shallow embedding of
      - [server/src/controller/users.controller.js] (the six request handlers),
      - [server/src/db/schema/users.js] (the declaration of [usersTable]),
      - [server/src/route/teams.route.js] (the team router),
    together with the semantics of the JavaScript and query-builder
    operations these files call, and the properties of the specification
    that concern them. *)

From Stdlib Require Import Bool List ZArith Lia String Ascii DecimalString.
From Stdlib Require Import Sorted Permutation.
Import ListNotations.
Open Scope string_scope.
Set Warnings "-register-all".

(* ================================================================= *)
(** ** JavaScript values and the built-ins the handlers use *)

Module Js.

(** Strings are sequences of code units below 256; a [Date] is represented
    by its time value ([Num] of the milliseconds since the epoch); numbers
    are exact integers (the handlers never produce a fraction).  [Num z]
    stands for the JavaScript number [z] when [z] is a safe integer (of
    magnitude at most 2^53 - 1); fractions and larger numbers, which a JSON
    body can carry, have no counterpart in this type. *)
Inductive value : Type :=
| Undefined
| Null
| Bool (b : bool)
| Num (z : Z)
| Str (s : string)
| Arr (items : list value)
| Obj (fields : list (string * value)).

(** Property lookup on an object literal: [o.k], [undefined] when absent. *)
Fixpoint get (k : string) (o : list (string * value)) : value :=
  match o with
  | [] => Undefined
  | (k', v) :: o' => if String.eqb k k' then v else get k o'
  end.

(** ToBoolean, as used by [!x]. *)
Definition truthy (v : value) : bool :=
  match v with
  | Undefined | Null => false
  | Bool b => b
  | Num z => negb (z =? 0)%Z
  | Str s => negb (String.eqb s "")
  | Arr _ | Obj _ => true
  end.

Definition is_undefined (v : value) : bool :=
  match v with Undefined => true | _ => false end.

Fixpoint join (sep : string) (l : list string) : string :=
  match l with
  | [] => ""
  | [s] => s
  | s :: l' => s ++ sep ++ join sep l'
  end.

(** ToString, as performed by a template literal and by [parseInt].  On
    the safe integers it is the decimal notation (JavaScript switches to the
    exponent form from 10^21 on, outside the numbers [Num] stands for). *)
Fixpoint to_string (v : value) : string :=
  match v with
  | Undefined => "undefined"
  | Null => "null"
  | Bool true => "true"
  | Bool false => "false"
  | Num z => NilEmpty.string_of_int (Z.to_int z)
  | Str s => s
  | Arr items =>
      join "," (map (fun x => match x with
                              | Undefined | Null => ""
                              | _ => to_string x
                              end) items)
  | Obj _ => "[object Object]"
  end.

(** White space and line terminators stripped by [String.prototype.trim]
    and skipped by [parseInt]: TAB, LF, VT, FF, CR, SP, NBSP. *)
Definition is_space (c : ascii) : bool :=
  let n := nat_of_ascii c in
  ((9 <=? n)%nat && (n <=? 13)%nat) || (n =? 32)%nat || (n =? 160)%nat.

Fixpoint trim_start (s : string) : string :=
  match s with
  | EmptyString => EmptyString
  | String c s' => if is_space c then trim_start s' else s
  end.

Fixpoint trim_end (s : string) : string :=
  match s with
  | EmptyString => EmptyString
  | String c s' =>
      match trim_end s' with
      | EmptyString => if is_space c then EmptyString else String c EmptyString
      | r => String c r
      end
  end.

Definition trim (s : string) : string := trim_end (trim_start s).

(** Value of a digit in the given radix, if it is one. *)
Definition digit_value (radix : Z) (c : ascii) : option Z :=
  let n := Z.of_nat (nat_of_ascii c) in
  let d := if (48 <=? n)%Z && (n <=? 57)%Z then Some (n - 48)%Z
           else if (97 <=? n)%Z && (n <=? 122)%Z then Some (n - 87)%Z
           else if (65 <=? n)%Z && (n <=? 90)%Z then Some (n - 55)%Z
           else None in
  match d with
  | Some x => if (x <? radix)%Z then Some x else None
  | None => None
  end.

(** Longest prefix of digits, read left to right; [None] when there is no
    digit at all. *)
Fixpoint read_digits (radix : Z) (acc : option Z) (s : string) : option Z :=
  match s with
  | EmptyString => acc
  | String c s' =>
      match digit_value radix c with
      | Some d =>
          read_digits radix
            (Some (match acc with Some a => a * radix + d | None => d end)%Z) s'
      | None => acc
      end
  end.

Definition strip_hex_prefix (s : string) : option string :=
  match s with
  | String "0" (String "x" r) | String "0" (String "X" r) => Some r
  | _ => None
  end.

(** [parseInt(v)] with no radix argument; [None] is NaN.  The result is the
    exact integer the digits denote; JavaScript rounds it to a double above
    2^53 - 1 (see [limit_of] for the one place the result is used). *)
Definition parseInt (v : value) : option Z :=
  let s := trim_start (to_string v) in
  let '(sign, s1) :=
    match s with
    | String "-" r => ((-1)%Z, r)
    | String "+" r => (1%Z, r)
    | _ => (1%Z, s)
    end in
  let '(radix, s2) :=
    match strip_hex_prefix s1 with
    | Some r => (16%Z, r)
    | None => (10%Z, s1)
    end in
  match read_digits radix None s2 with
  | Some n => Some (sign * n)%Z
  | None => None
  end.

(** What a handler can throw. *)
Inductive exn : Type :=
| ApiError (statusCode : Z) (message : string)
| TypeError (message : string)
| Error (message : string).

(** A computation that returns or throws. *)
Inductive result (A : Type) : Type :=
| Return (a : A)
| Throw (e : exn).
Arguments Return {A} a.
Arguments Throw {A} e.

Definition bind {A B : Type} (m : result A) (k : A -> result B) : result B :=
  match m with
  | Return a => k a
  | Throw e => Throw e
  end.

End Js.

Import Js.

Notation "x <- m ;; k" := (bind m (fun x => k))
  (at level 61, m at next level, right associativity).

(* ================================================================= *)
(** ** The query builder: tables, conditions, select and update *)

Module Orm.

(** A column declaration of [pgTable]. *)
Inductive default_value : Type :=
| NoDefault
| DefaultLit (v : value)
| DefaultRandom
| DefaultNow.

Record column : Type := mkColumn {
  sql_name : string;
  sql_type : string;
  primary_key : bool;
  not_null : bool;
  is_unique : bool;
  default : default_value
}.

(** A table object: its declared keys, in declaration order. *)
Definition table : Type := list (string * column).

(** A stored row and a result row: cells by key. *)
Definition row : Type := list (string * value).

Fixpoint declared (t : table) (k : string) : option column :=
  match t with
  | [] => None
  | (k', c) :: t' => if String.eqb k k' then Some c else declared t' k
  end.

(** The property read [t.k]: a reference to the column declared under [k],
    or [undefined] ([None]) when the table object has no such key. *)
Definition field (t : table) (k : string) : option string :=
  match declared t k with
  | Some _ => Some k
  | None => None
  end.

(** The cell of a row; SQL NULL when the row has none. *)
Fixpoint cell (r : row) (k : string) : value :=
  match r with
  | [] => Null
  | (k', v) :: r' => if String.eqb k k' then v else cell r' k
  end.

Fixpoint assign (r : row) (k : string) (v : value) : row :=
  match r with
  | [] => [(k, v)]
  | (k', v') :: r' =>
      if String.eqb k k' then (k, v) :: r' else (k', v') :: assign r' k v
  end.

(** *** LIKE and ILIKE *)

(** The case folding of the database, taken to be that of a Unicode-aware
    locale: on the code units below 256 the capitals are A-Z, the Latin-1
    capitals from U+00C0 to U+00D6 and from U+00D8 to U+00DE, each 32 below
    its small letter.  (A database in the locale C folds A-Z only.) *)
Definition lower_char (c : ascii) : ascii :=
  let n := nat_of_ascii c in
  if (((65 <=? n)%nat && (n <=? 90)%nat)
      || ((192 <=? n)%nat && (n <=? 214)%nat)
      || ((216 <=? n)%nat && (n <=? 222)%nat))%bool
  then ascii_of_nat (n + 32) else c.

Fixpoint lower (s : string) : string :=
  match s with
  | EmptyString => EmptyString
  | String c s' => String (lower_char c) (lower s')
  end.

(** [like p s]: does the text [s] match the LIKE pattern [p]?  [%] stands
    for any run of characters, [_] for any one character, and a backslash
    makes the next pattern character literal.  (The database rejects a
    pattern that ends in a lone backslash; the patterns built by the
    handlers always end in [%].) *)
Fixpoint like (p : string) : string -> bool :=
  match p with
  | EmptyString =>
      fun s => match s with EmptyString => true | _ => false end
  | String c p' =>
      if Ascii.eqb c "%" then
        fix any (s : string) : bool :=
          like p' s || match s with
                       | EmptyString => false
                       | String _ s' => any s'
                       end
      else if Ascii.eqb c "_" then
        fun s => match s with
                 | EmptyString => false
                 | String _ s' => like p' s'
                 end
      else if Ascii.eqb c "\" then
        match p' with
        | EmptyString => fun _ => false
        | String d p'' =>
            fun s => match s with
                     | EmptyString => false
                     | String x s' => Ascii.eqb x d && like p'' s'
                     end
        end
      else
        fun s => match s with
                 | EmptyString => false
                 | String x s' => Ascii.eqb x c && like p' s'
                 end
  end.

(** ILIKE folds the case of both sides. *)
Definition ilike_text (s p : string) : bool := like (lower p) (lower s).

(** *** Conditions *)

(** The conditions the handlers build; a column operand is the result of a
    property read on the table object, so it may be [undefined]. *)
Inductive cond : Type :=
| eq (c : option string) (v : value)
| ilike (c : option string) (pattern : string)
| or (cs : list cond).

Definition str_eqb (a b : value) : bool :=
  match a, b with
  | Str x, Str y => String.eqb x y
  | _, _ => false
  end.

(** Every column operand is a declared column. *)
Fixpoint well_formed (c : cond) : bool :=
  match c with
  | eq (Some _) _ | ilike (Some _) _ => true
  | eq None _ | ilike None _ => false
  | or cs => forallb well_formed cs
  end.

(** Rows kept by WHERE: the condition is true (a comparison with NULL is
    not). *)
Fixpoint holds (c : cond) (r : row) : bool :=
  match c with
  | eq (Some k) v => str_eqb (cell r k) v
  | ilike (Some k) p =>
      match cell r k with
      | Str s => ilike_text s p
      | _ => false
      end
  | eq None _ | ilike None _ => false
  | or cs => existsb (fun c' => holds c' r) cs
  end.

(** *** ORDER BY *)

(** Ascending order on a text column, NULLs last; text is compared code
    unit by code unit (the collation C; another collation orders text
    otherwise). *)
Definition cell_le (a b : value) : bool :=
  match a, b with
  | Str x, Str y => String.leb x y
  | _, Str _ => false
  | _, _ => true
  end.

Definition row_le (k : string) (r1 r2 : row) : bool :=
  cell_le (cell r1 k) (cell r2 k).

Fixpoint insert_sorted (k : string) (r : row) (l : list row) : list row :=
  match l with
  | [] => [r]
  | r' :: l' =>
      if row_le k r r' then r :: l else r' :: insert_sorted k r l'
  end.

(** Rows with equal keys keep their table order. *)
Definition order_by (k : string) (l : list row) : list row :=
  fold_right (insert_sorted k) [] l.

(** *** LIMIT *)

Inductive limit_clause : Type :=
| NoLimit
| Limit (n : nat)
| Rejected.

Definition apply_limit (n : nat) (l : list row) : list row := firstn n l.

(** *** SELECT *)

(** The object passed to [select] or [returning]: result key and column. *)
Definition selection : Type := list (string * option string).

Definition selection_ok (sel : selection) : bool :=
  forallb (fun f => match snd f with Some _ => true | None => false end) sel.

Definition project (sel : selection) (r : row) : row :=
  map (fun f => (fst f, match snd f with
                        | Some k => cell r k
                        | None => Undefined
                        end)) sel.

Definition undefined_column : exn :=
  TypeError "Cannot convert undefined or null to object".

(** [db.select(sel).from(t).where(c).orderBy(o).limit(n)] on the rows of
    [t].  A selection with an [undefined] entry makes the builder throw; an
    [undefined] operand in WHERE or ORDER BY, or a limit the database
    rejects, makes the query fail. *)
Definition run_select (sel : selection) (c : cond)
    (order : option (option string)) (lim : limit_clause)
    (rows : list row) : result (list row) :=
  if negb (selection_ok sel) then Throw undefined_column
  else if negb (well_formed c) then Throw (Error "query failed")
  else
    let kept := filter (holds c) rows in
    sorted <- match order with
              | None => Return kept
              | Some (Some k) => Return (order_by k kept)
              | Some None => Throw (Error "query failed")
              end ;;
    limited <- match lim with
               | NoLimit => Return sorted
               | Limit n => Return (apply_limit n sorted)
               | Rejected => Throw (Error "query failed")
               end ;;
    Return (map (project sel) limited).

(** *** UPDATE *)

(** The entries of the [set] object that are not [undefined]. *)
Definition defined_entries (set : list (string * value)) : list (string * value) :=
  filter (fun e => negb (is_undefined (snd e))) set.

(** Writes the entries whose key is a declared column of [t]. *)
Fixpoint write (t : table) (set : list (string * value)) (r : row) : row :=
  match set with
  | [] => r
  | (k, v) :: set' =>
      match declared t k with
      | Some _ => write t set' (assign r k v)
      | None => write t set' r
      end
  end.

(** [db.update(t).set(set).where(c).returning(ret)]: the new rows of the
    table and the rows returned ([ret = None]: no [returning] call, nothing
    returned).  [set] throws when no entry is defined, [returning] throws on
    an [undefined] entry; both happen while the statement is built, before
    anything is written.  Column types and constraints are not modelled: a
    cell holds the value as it was given (the database would convert it to
    the type of the column), and a statement the database would reject (a
    duplicate in a unique column, a text that is no uuid) is carried out. *)
Definition run_update (t : table) (set : list (string * value)) (c : cond)
    (ret : option selection) (rows : list row) : result (list row) * list row :=
  let entries := defined_entries set in
  match entries with
  | [] => (Throw (Error "No values to set"), rows)
  | _ :: _ =>
      if negb (match ret with Some sel => selection_ok sel | None => true end)
      then (Throw undefined_column, rows)
      else if negb (well_formed c) then (Throw (Error "query failed"), rows)
      else
        let rows' :=
          map (fun r => if holds c r then write t entries r else r) rows in
        let returned :=
          match ret with
          | Some sel =>
              map (fun r => project sel (write t entries r))
                  (filter (holds c) rows)
          | None => []
          end in
        (Return returned, rows')
  end.

End Orm.

Import Orm.

(* ================================================================= *)
(** ** server/src/db/schema/users.js *)

Module Schema.

Inductive UserRole : Type := USER | ORGANIZER.

Definition role_name (r : UserRole) : string :=
  match r with
  | USER => "USER"
  | ORGANIZER => "ORGANIZER"
  end.

(** [pgTable("users", { ... })].  The [role] line of the source is
    commented out, so the table object has no [role] key. *)
Definition usersTable : table :=
  [ ("id",         mkColumn "id"         "uuid"      true  true  true  DefaultRandom);
    ("email",      mkColumn "email"      "varchar"   false true  true  NoDefault);
    ("fullName",   mkColumn "full_name"  "varchar"   false true  false NoDefault);
    ("userName",   mkColumn "user_name"  "varchar"   false false true  NoDefault);
    ("password",   mkColumn "password"   "text"      false true  false NoDefault);
    ("avatarUrl",  mkColumn "avatar_url" "text"      false false false
                     (DefaultLit (Str "avatar")));
    ("bio",        mkColumn "bio"        "text"      false false false
                     (DefaultLit (Str "--")));
    ("isVerified", mkColumn "is_verified" "boolean"  false true  false NoDefault);
    ("code",       mkColumn "code"       "text"      false true  false NoDefault);
    ("expiresAt",  mkColumn "expires_at" "timestamp" false true  false NoDefault);
    ("createdAt",  mkColumn "created_at" "timestamp" false true  false DefaultNow);
    ("updatedAt",  mkColumn "updated_at" "timestamp" false true  false DefaultNow) ].

End Schema.

(* ================================================================= *)
(** ** server/src/controller/users.controller.js *)

Module UsersController.

(** A parsed query-string parameter: a string, or a list or an object of
    parameters (repeated and bracketed keys). *)
Inductive qparam : Type :=
| QStr (s : string)
| QArr (items : list qparam)
| QObj (fields : list (string * qparam)).

Fixpoint qvalue (p : qparam) : value :=
  match p with
  | QStr s => Str s
  | QArr items => Arr (map qvalue items)
  | QObj fields => Obj (map (fun f => let '(k, x) := f in (k, qvalue x)) fields)
  end.

(** The parts of an Express request the handlers read.  [user_id] is
    [req.user.id], set by the authentication middleware; [file] is the
    buffer of [req.file]; [body] is the parsed JSON body; [query] the parsed
    query string; [params] the route parameters. *)
Record request : Type := mkRequest {
  user_id : string;
  file : option string;
  body : list (string * value);
  query : list (string * qparam);
  params : list (string * string)
}.

Fixpoint lookup {A : Type} (k : string) (l : list (string * A)) : option A :=
  match l with
  | [] => None
  | (k', x) :: l' => if String.eqb k k' then Some x else lookup k l'
  end.

(** [req.query.k] and [req.params.k]. *)
Definition query_param (req : request) (k : string) : value :=
  match lookup k (query req) with
  | Some p => qvalue p
  | None => Undefined
  end.

Definition route_param (req : request) (k : string) : value :=
  match lookup k (params req) with
  | Some s => Str s
  | None => Undefined
  end.

(** [new ApiResponse(statusCode, data, message)]. *)
Record ApiResponse : Type := mkApiResponse {
  statusCode : Z;
  data : value;
  message : string
}.

(** [res.status(status).json(payload)]. *)
Record response : Type := mkResponse {
  status : Z;
  payload : ApiResponse
}.

Definition respond (code : Z) (d : value) (msg : string) : response :=
  mkResponse code (mkApiResponse code d msg).

(** [v.k] on a value: reading a property of [undefined] or [null] throws. *)
Definition member (v : value) (k : string) : result value :=
  match v with
  | Undefined | Null =>
      Throw (TypeError "Cannot read properties of undefined")
  | Obj fields => Return (get k fields)
  | _ => Return Undefined
  end.

Section Handlers.

(** The imported table object. *)
Variable usersTable : table.

(** The clock: the value of [Date.now()] and of [new Date()] during the
    request. *)
Variable now : Z.

(** The object-storage collaborator: resolves to the upload result or
    rejects. *)
Variable uploadBufferToCloudinary :
  string -> list (string * value) -> result value.

(** What the query layer does with a limit that is not a positive safe
    integer: NaN, zero, a negative number, or a number above 2^53 - 1, which
    [parseInt] rounds and which the database rejects once it exceeds its
    64-bit range.  The source does not fix it. *)
Variable irregular_limit : option Z -> limit_clause.

(** [Number.MAX_SAFE_INTEGER]. *)
Definition max_safe_integer : Z := 9007199254740991.

Definition limit_of (n : option Z) : limit_clause :=
  match n with
  | Some z =>
      if ((0 <? z)%Z && (z <=? max_safe_integer)%Z)%bool
      then Limit (Z.to_nat z)
      else irregular_limit n
  | None => irregular_limit n
  end.

(** The options object passed to the storage collaborator. *)
Definition upload_options (req : request) : list (string * value) :=
  [ ("folder", Str "profile_images");
    ("resource_type", Str "image");
    ("public_id",
     Str ("user_" ++ user_id req ++ "_" ++ to_string (Num now)));
    ("overwrite", Bool true) ].

Definition uploadProfileImage (req : request) (users : list row)
  : result response * list row :=
  let userId := user_id req in
  match file req with
  | None => (Throw (ApiError 400 "No file uploaded"), users)
  | Some buffer =>
      match uploadBufferToCloudinary buffer (upload_options req) with
      | Throw _ => (Throw (ApiError 500 "Cloudinary upload failed"), users)
      | Return result =>
          match member result "secure_url" with
          | Throw e => (Throw e, users)
          | Return secure_url =>
              let '(written, users') :=
                run_update usersTable
                  [ ("avatarUrl", secure_url) ]
                  (eq (field usersTable "id") (Str userId))
                  None users in
              match written with
              | Throw e => (Throw e, users')
              | Return _ =>
                  (Return (respond 200 (Obj [ ("avatarUrl", secure_url) ])
                             "Profile image updated"), users')
              end
          end
      end
  end.

(** The object literal passed to [set] by [updateUserProfile]. *)
Definition profile_set (req : request) : list (string * value) :=
  let firstName := get "firstName" (body req) in
  let lastName := get "lastName" (body req) in
  let userName := get "userName" (body req) in
  let location := get "location" (body req) in
  let bio := get "bio" (body req) in
  let skills := get "skills" (body req) in
  let socialLinks := get "socialLinks" (body req) in
  let interests := get "interests" (body req) in
  [ ("fullName", Str (to_string firstName ++ " " ++ to_string lastName));
    ("userName", userName);
    ("bio", bio);
    ("skills", skills);
    ("interests", interests);
    ("socialLinks", socialLinks);
    ("location", location);
    ("updatedAt", Num now) ].

Definition updateUserProfile (req : request) (users : list row)
  : result response * list row :=
  let userId := user_id req in
  let '(written, users') :=
    run_update usersTable (profile_set req)
      (eq (field usersTable "id") (Str userId))
      (Some [ ("fullName", field usersTable "fullName");
              ("userName", field usersTable "userName");
              ("bio", field usersTable "bio");
              ("location", field usersTable "location");
              ("socialLinks", field usersTable "socialLinks");
              ("skills", field usersTable "skills");
              ("interests", field usersTable "interests") ])
      users in
  match written with
  | Throw e => (Throw e, users')
  | Return [] => (Throw (ApiError 404 "User not found"), users')
  | Return (updated :: _) =>
      (Return (respond 200 (Obj [ ("user", Obj updated) ])
                 "Profile updated successfully"), users')
  end.

Definition getUserProfileByUsername (req : request) (users : list row)
  : result response :=
  let username := query_param req "userName" in
  if negb (truthy username) then
    Throw (ApiError 400 "Username query parameter is required")
  else
    rows <- run_select
              [ ("id", field usersTable "id");
                ("fullName", field usersTable "fullName");
                ("userName", field usersTable "userName");
                ("bio", field usersTable "bio");
                ("location", field usersTable "location");
                ("avatarUrl", field usersTable "avatarUrl");
                ("socialLinks", field usersTable "socialLinks");
                ("skills", field usersTable "skills");
                ("interests", field usersTable "interests") ]
              (eq (field usersTable "userName") username)
              None (Limit 1) users ;;
    match rows with
    | [] => Throw (ApiError 404 "User not found")
    | user :: _ =>
        Return (respond 200 (Obj user) "User profile retrieved successfully")
    end.

Definition getUserProfile (req : request) (users : list row)
  : result response :=
  let userId := route_param req "userId" in
  if negb (truthy userId) then Throw (ApiError 400 "User ID is required")
  else
    rows <- run_select
              [ ("id", field usersTable "id");
                ("fullName", field usersTable "fullName");
                ("userName", field usersTable "userName");
                ("bio", field usersTable "bio");
                ("location", field usersTable "location");
                ("avatarUrl", field usersTable "avatarUrl");
                ("socialsLinks", field usersTable "socialsLinks");
                ("skills", field usersTable "skills");
                ("interests", field usersTable "interests") ]
              (eq (field usersTable "id") userId)
              None (Limit 1) users ;;
    match rows with
    | [] => Throw (ApiError 404 "User not found")
    | user :: _ =>
        Return (respond 200 (Obj user) "User profile retrieved successfully")
    end.

Definition updateUserRole (req : request) (users : list row)
  : result response * list row :=
  let role := get "role" (body req) in
  let userId := user_id req in
  let '(written, users') :=
    run_update usersTable
      [ ("role", role); ("updatedAt", Num now) ]
      (eq (field usersTable "id") (Str userId))
      (Some [ ("id", field usersTable "id");
              ("fullName", field usersTable "fullName");
              ("userName", field usersTable "userName");
              ("role", field usersTable "role") ])
      users in
  match written with
  | Throw e => (Throw e, users')
  | Return [] => (Throw (ApiError 404 "User not found"), users')
  | Return (updated :: _) =>
      (Return (respond 200 (Obj updated) "User role updated successfully"),
       users')
  end.

(** The three ILIKE tests of [searchUsers], joined by [or]. *)
Definition search_condition (searchTerm : string) : cond :=
  or [ ilike (field usersTable "fullName") ("%" ++ searchTerm ++ "%");
       ilike (field usersTable "userName") ("%" ++ searchTerm ++ "%");
       ilike (field usersTable "email") ("%" ++ searchTerm ++ "%") ].

(** The object passed to [select] by [searchUsers]. *)
Definition search_fields : selection :=
  [ ("id", field usersTable "id");
    ("fullName", field usersTable "fullName");
    ("username", field usersTable "userName");
    ("email", field usersTable "email");
    ("avatarUrl", field usersTable "avatarUrl");
    ("bio", field usersTable "bio") ].

(** The statement is ORDER BY [fullName] then LIMIT, whatever the order of
    the two builder calls. *)
Definition searchUsers (req : request) (users : list row)
  : result response :=
  let q := query_param req "q" in
  let limit := match query_param req "limit" with
               | Undefined => Num 10
               | v => v
               end in
  if negb (truthy q) then
    Throw (ApiError 400 "Search query must be at least 2 characters")
  else
    match q with
    | Str s =>
        if (String.length (trim s) <? 2)%nat then
          Throw (ApiError 400 "Search query must be at least 2 characters")
        else
          let searchTerm := trim s in
          found <- run_select search_fields
                     (search_condition searchTerm)
                     (Some (field usersTable "fullName"))
                     (limit_of (parseInt limit)) users ;;
          Return (respond 200 (Arr (map Obj found)) "Users found successfully")
    | _ => Throw (TypeError "q.trim is not a function")
    end.

End Handlers.

End UsersController.

(* ================================================================= *)
(** ** server/src/route/teams.route.js *)

Module TeamsRoute.

Inductive method : Type := GET | POST | PUT | DELETE.

(** A path pattern, segment by segment: a literal or a named parameter. *)
Inductive segment : Type :=
| Lit (s : string)
| Param (name : string).

Inductive validator_schema : Type := createTeamSchema | updateTeamSchema.

Inductive middleware : Type :=
| verifyJWT
| validate (schema : validator_schema).

(** The imported controller functions. *)
Inductive controller : Type :=
| createTeam | getTeamById | joinTeam | leaveTeam | removeMember
| transferLeadership | updateTeamInfo | getTeamsByHackathon | getUserTeams.

(** [router.verb(path, ...chain, target)]. *)
Record route : Type := mkRoute {
  verb : method;
  path : list segment;
  chain : list middleware;
  target : controller
}.

(** The registrations, in source order. *)
Definition router : list route :=
  [ mkRoute POST [] [verifyJWT; validate createTeamSchema] createTeam;
    mkRoute GET [Param "teamId"] [] getTeamById;
    mkRoute PUT [Param "teamId"] [verifyJWT; validate updateTeamSchema]
      updateTeamInfo;
    mkRoute POST [Param "teamId"; Lit "join"] [verifyJWT] joinTeam;
    mkRoute DELETE [Param "teamId"; Lit "leave"] [verifyJWT] leaveTeam;
    mkRoute DELETE [Param "teamId"; Lit "members"; Param "userId"] [verifyJWT]
      removeMember;
    mkRoute PUT [Param "teamId"; Lit "transfer"; Param "userId"] [verifyJWT]
      transferLeadership;
    mkRoute GET [Lit "hackathon"; Param "hackathonId"] [] getTeamsByHackathon;
    mkRoute GET [Lit "user"; Lit "my-teams"] [verifyJWT] getUserTeams ].

Definition method_eqb (a b : method) : bool :=
  match a, b with
  | GET, GET | POST, POST | PUT, PUT | DELETE, DELETE => true
  | _, _ => false
  end.

Definition middleware_is_verifyJWT (m : middleware) : bool :=
  match m with verifyJWT => true | validate _ => false end.

(** [Router()] is created without options, so paths are matched without
    regard to letter case; the literals of the router are ASCII. *)
Definition fold_char (c : ascii) : ascii :=
  let n := nat_of_ascii c in
  if ((65 <=? n)%nat && (n <=? 90)%nat)%bool then ascii_of_nat (n + 32) else c.

Fixpoint fold_case (s : string) : string :=
  match s with
  | EmptyString => EmptyString
  | String c s' => String (fold_char c) (fold_case s')
  end.

(** A literal matches its segment up to letter case; a parameter matches
    one non-empty segment of the request path. *)
Definition segment_matches (p : segment) (s : string) : bool :=
  match p with
  | Lit l => String.eqb (fold_case l) (fold_case s)
  | Param _ => negb (String.eqb s "")
  end.

Fixpoint path_matches (p : list segment) (url : list string) : bool :=
  match p, url with
  | [], [] => true
  | x :: p', s :: url' => segment_matches x s && path_matches p' url'
  | _, _ => false
  end.

(** The first registration that matches the request. *)
Definition dispatch (m : method) (url : list string) : option route :=
  find (fun r => method_eqb (verb r) m && path_matches (path r) url) router.

Inductive served : Type :=
| Handled (c : controller)
| StoppedBy (m : middleware)
| NoRoute.

(** A middleware either calls [next] ([pass m = true]) or ends the request. *)
Fixpoint run_chain (pass : middleware -> bool) (ms : list middleware)
    (c : controller) : served :=
  match ms with
  | [] => Handled c
  | m :: ms' => if pass m then run_chain pass ms' c else StoppedBy m
  end.

Definition serve (pass : middleware -> bool) (m : method) (url : list string)
  : served :=
  match dispatch m url with
  | Some r => run_chain pass (chain r) (target r)
  | None => NoRoute
  end.

(** Does the route run the token verifier before its controller? *)
Definition requires_auth (r : route) : bool :=
  existsb middleware_is_verifyJWT (chain r).

Definition show_segment (s : segment) : string :=
  match s with
  | Lit l => "/" ++ l
  | Param n => "/:" ++ n
  end.

Definition show_path (p : list segment) : string :=
  match p with
  | [] => "/"
  | _ => String.concat "" (map show_segment p)
  end.

(** The team rows of the interface table of the specification (method,
    path below the mount point [/teams], authentication required). *)
Definition interface_table : list (method * string * bool) :=
  [ (POST, "/", true);
    (GET, "/:teamId", false);
    (PUT, "/:teamId", true);
    (POST, "/:teamId/join", true);
    (DELETE, "/:teamId/leave", true);
    (DELETE, "/:teamId/members/:userId", true);
    (PUT, "/:teamId/transfer/:userId", true);
    (GET, "/hackathon/:hackathonId", false);
    (GET, "/user/my-teams", true) ].

End TeamsRoute.

(* ================================================================= *)
(** ** The team service *)

Module TeamService.

(** Modelled from the spec: [server/src/controller/teams.controller.js]
    (createTeam, joinTeam, leaveTeam, removeMember, transferLeadership,
    updateTeamInfo) is not among the sources; the operations below follow
    section 4.1 of the specification, with the checks in the order the
    specification lists them.  Identifiers are numbers; a new team takes
    the next unused one. *)

Definition UUID : Type := nat.

Record Team : Type := mkTeam {
  id : UUID;
  hackathonId : UUID;
  name : string;
  description : string;
  leaderId : UUID;
  maxMembers : Z
}.

Record TeamMembership : Type := mkMembership {
  teamId : UUID;
  userId : UUID;
  joinedAt : Z
}.

Record store : Type := mkStore {
  teams : list Team;
  memberships : list TeamMembership;
  next_id : UUID
}.

Inductive error : Type :=
| ValidationError | NotFoundError | ConflictError | ForbiddenError
| CapacityError | LeadershipRequiredError.

Definition initial : store := mkStore [] [] 0.

Definition find_team (st : store) (tid : UUID) : option Team :=
  find (fun t => Nat.eqb (id t) tid) (teams st).

Definition members_of (st : store) (tid : UUID) : list TeamMembership :=
  filter (fun m => Nat.eqb (teamId m) tid) (memberships st).

Definition memberCount (st : store) (tid : UUID) : Z :=
  Z.of_nat (List.length (members_of st tid)).

Definition is_member (st : store) (tid uid : UUID) : bool :=
  existsb (fun m => Nat.eqb (teamId m) tid && Nat.eqb (userId m) uid)
          (memberships st).

(** Has the user joined (or does the user lead) a team of the hackathon? *)
Definition in_hackathon (st : store) (hid uid : UUID) : bool :=
  existsb (fun t => Nat.eqb (hackathonId t) hid &&
                    (Nat.eqb (leaderId t) uid || is_member st (id t) uid))
          (teams st).

Definition remove_membership (tid uid : UUID) (ms : list TeamMembership)
  : list TeamMembership :=
  filter (fun m => negb (Nat.eqb (teamId m) tid && Nat.eqb (userId m) uid)) ms.

Definition replace_team (t' : Team) (ts : list Team) : list Team :=
  map (fun t => if Nat.eqb (id t) (id t') then t' else t) ts.

(** Modelled from the spec: [createTeam] of the absent team controller
    (specification, section 4.1). *)
Definition createTeam (st : store) (hid creator : UUID) (nm descr : string)
    (cap : Z) (now : Z) : error + store :=
  if (cap <? 1)%Z || String.eqb nm "" then inl ValidationError
  else if in_hackathon st hid creator then inl ConflictError
  else
    let tid := next_id st in
    inr (mkStore (teams st ++ [mkTeam tid hid nm descr creator cap])
                 (memberships st ++ [mkMembership tid creator now])
                 (S tid)).

(** Modelled from the spec: [joinTeam] of the absent team controller
    (specification, section 4.1). *)
Definition joinTeam (st : store) (tid uid : UUID) (now : Z) : error + store :=
  match find_team st tid with
  | None => inl NotFoundError
  | Some t =>
      if (maxMembers t <=? memberCount st tid)%Z then inl CapacityError
      else if is_member st tid uid then inl ConflictError
      else inr (mkStore (teams st)
                        (memberships st ++ [mkMembership tid uid now])
                        (next_id st))
  end.

(** Modelled from the spec: [leaveTeam] of the absent team controller
    (specification, section 4.1). *)
Definition leaveTeam (st : store) (tid uid : UUID) : error + store :=
  if negb (is_member st tid uid) then inl NotFoundError
  else
    match find_team st tid with
    | None => inl NotFoundError
    | Some t =>
        if Nat.eqb uid (leaderId t) then
          if (1 <? memberCount st tid)%Z then inl LeadershipRequiredError
          else
            inr (mkStore
                   (filter (fun t' => negb (Nat.eqb (id t') tid)) (teams st))
                   (filter (fun m => negb (Nat.eqb (teamId m) tid))
                           (memberships st))
                   (next_id st))
        else
          inr (mkStore (teams st)
                       (remove_membership tid uid (memberships st))
                       (next_id st))
    end.

(** Modelled from the spec: [removeMember] of the absent team controller
    (specification, section 4.1). *)
Definition removeMember (st : store) (tid actor target : UUID)
  : error + store :=
  match find_team st tid with
  | None => inl NotFoundError
  | Some t =>
      if negb (Nat.eqb actor (leaderId t)) then inl ForbiddenError
      else if Nat.eqb target (leaderId t) then inl ForbiddenError
      else if negb (is_member st tid target) then inl NotFoundError
      else
        inr (mkStore (teams st)
                     (remove_membership tid target (memberships st))
                     (next_id st))
  end.

(** Modelled from the spec: [transferLeadership] of the absent team controller
    (specification, section 4.1). *)
Definition transferLeadership (st : store) (tid actor newLeader : UUID)
  : error + store :=
  match find_team st tid with
  | None => inl NotFoundError
  | Some t =>
      if negb (Nat.eqb actor (leaderId t)) then inl ForbiddenError
      else if negb (is_member st tid newLeader) then inl NotFoundError
      else
        inr (mkStore
               (replace_team
                  (mkTeam (id t) (hackathonId t) (name t) (description t)
                          newLeader (maxMembers t))
                  (teams st))
               (memberships st) (next_id st))
  end.

(** Modelled from the spec: [updateTeamInfo] of the absent team controller
    (specification, section 4.1). *)
Definition updateTeamInfo (st : store) (tid actor : UUID)
    (nm descr : option string) (cap : option Z) : error + store :=
  match find_team st tid with
  | None => inl NotFoundError
  | Some t =>
      if negb (Nat.eqb actor (leaderId t)) then inl ForbiddenError
      else
        let cap' := match cap with Some c => c | None => maxMembers t end in
        if (cap' <? memberCount st tid)%Z then inl CapacityError
        else
          inr (mkStore
                 (replace_team
                    (mkTeam (id t) (hackathonId t)
                            (match nm with Some n => n | None => name t end)
                            (match descr with
                             | Some d => d
                             | None => description t
                             end)
                            (leaderId t) cap')
                    (teams st))
                 (memberships st) (next_id st))
  end.

(** A call of the service. *)
Inductive operation : Type :=
| CreateTeam (hid creator : UUID) (nm descr : string) (cap : Z) (now : Z)
| JoinTeam (tid uid : UUID) (now : Z)
| LeaveTeam (tid uid : UUID)
| RemoveMember (tid actor target : UUID)
| TransferLeadership (tid actor newLeader : UUID)
| UpdateTeamInfo (tid actor : UUID) (nm descr : option string) (cap : option Z).

Definition perform (st : store) (o : operation) : error + store :=
  match o with
  | CreateTeam hid creator nm descr cap now =>
      createTeam st hid creator nm descr cap now
  | JoinTeam tid uid now => joinTeam st tid uid now
  | LeaveTeam tid uid => leaveTeam st tid uid
  | RemoveMember tid actor target => removeMember st tid actor target
  | TransferLeadership tid actor newLeader =>
      transferLeadership st tid actor newLeader
  | UpdateTeamInfo tid actor nm descr cap =>
      updateTeamInfo st tid actor nm descr cap
  end.

(** A failed call leaves the store as it was. *)
Definition step (st : store) (o : operation) : store :=
  match perform st o with
  | inr st' => st'
  | inl _ => st
  end.

Definition run (st : store) (ops : list operation) : store :=
  fold_left step ops st.

End TeamService.

(* ================================================================= *)
(** ** Vocabulary of the specification *)

Module Spec.
Import UsersController.





(** No character of [s] is special in a LIKE pattern. *)
Definition plain_char (c : ascii) : bool :=
  negb (Ascii.eqb c "%" || Ascii.eqb c "_" || Ascii.eqb c "\").

Fixpoint plain (s : string) : bool :=
  match s with
  | EmptyString => true
  | String c s' => plain_char c && plain s'
  end.


Definition validation_error (r : result response) : Prop :=
  exists msg, r = Throw (ApiError 400 msg).

(** The rows a response carries. *)
Definition rows_returned (r : result response) : list value :=
  match r with
  | Return resp =>
      match data (payload resp) with
      | Arr items => items
      | Obj fields => [Obj fields]
      | _ => []
      end
  | Throw _ => []
  end.

(** The keys of an object (of each object of a list). *)
Definition keys_of (v : value) : list string :=
  match v with
  | Obj fields => map fst fields
  | Arr items =>
      flat_map (fun x => match x with
                         | Obj fields => map fst fields
                         | _ => []
                         end) items
  | _ => []
  end.

Definition response_keys (r : result response) : list string :=
  match r with
  | Return resp => keys_of (data (payload resp))
  | Throw _ => []
  end.

(** The columns no read may reveal. *)
Definition secret_keys : list string :=
  ["password"; "code"; "expiresAt"; "isVerified"].

Definition is_secret (k : string) : bool :=
  existsb (String.eqb k) secret_keys.

(** Two stores that differ at most in the secret cells of their rows. *)
Definition same_public (u1 u2 : list row) : Prop :=
  Forall2 (fun r1 r2 => forall k, is_secret k = false -> cell r1 k = cell r2 k)
          u1 u2.

(** A column operand, a selection, a condition that reads no secret
    column. *)
Definition public_ref (o : option string) : bool :=
  match o with
  | Some k => negb (is_secret k)
  | None => true
  end.

Definition public_selection (sel : selection) : bool :=
  forallb (fun f => public_ref (snd f)) sel.

Fixpoint public_cond (c : cond) : bool :=
  match c with
  | eq o _ | ilike o _ => public_ref o
  | or cs => forallb public_cond cs
  end.

(** The columns [updateUserProfile] must not touch. *)
Definition frame_keys : list string :=
  ["email"; "password"; "avatarUrl"; "isVerified"; "code"; "expiresAt"].

Definition in_frame (k : string) : bool :=
  existsb (String.eqb k) frame_keys.

End Spec.

(* ================================================================= *)
(** ** Sample data *)

Module Samples.
Import UsersController.

Definition user (uid email fullName userName password code : string) : row :=
  [ ("id", Str uid); ("email", Str email); ("fullName", Str fullName);
    ("userName", Str userName); ("password", Str password);
    ("avatarUrl", Str "avatar"); ("bio", Str "--");
    ("isVerified", Bool true); ("code", Str code);
    ("expiresAt", Num 1700000600000); ("createdAt", Num 1700000000000);
    ("updatedAt", Num 1700000000000) ].

Definition alice : row :=
  user "u1" "alice@example.org" "Alice Liddell" "alice" "hash-1" "111111".

Definition bob : row :=
  user "u2" "bob@example.org" "Bob Stone" "bobby" "hash-2" "222222".

Definition ada : row :=
  user "u3" "ada@example.org" "Ada Lovelace" "countess" "hash-3" "333333".

Definition users : list row := [bob; alice; ada].

(** [ada] with other secrets. *)
Definition ada' : row :=
  [ ("id", Str "u3"); ("email", Str "ada@example.org");
    ("fullName", Str "Ada Lovelace"); ("userName", Str "countess");
    ("password", Str "other-hash"); ("avatarUrl", Str "avatar");
    ("bio", Str "--"); ("isVerified", Bool false); ("code", Str "999999");
    ("expiresAt", Num 5); ("createdAt", Num 1700000000000);
    ("updatedAt", Num 1700000000000) ].

Definition unlimited : option Z -> limit_clause := fun _ => NoLimit.

(** A query layer that rejects every irregular limit. *)
Definition rejecting : option Z -> limit_clause := fun _ => Rejected.

(** A user whose name starts with the code unit 201 (E with acute); the
    small letter is the code unit 233. *)
Definition emile : row :=
  user "u4" "zola@example.org" (String (ascii_of_nat 201) "mile Zola")
    "zola" "hash-4" "444444".

Definition emile_query : string := String (ascii_of_nat 233) "mile".

Definition storage_ok (buffer : string) (options : list (string * value))
  : result value :=
  Return (Obj [ ("secure_url",
                 Str ("https://cdn.example/" ++
                      to_string (get "public_id" options))) ]).

Definition storage_down (buffer : string) (options : list (string * value))
  : result value :=
  Throw (Error "ECONNRESET").

(** [usersTable] with the keys the controller reads besides the declared
    ones: the table the handlers are written against. *)
Definition extendedTable : table :=
  (Schema.usersTable ++
  [ ("location",    mkColumn "location"     "text"    false false false NoDefault);
    ("socialLinks", mkColumn "social_links" "jsonb"   false false false NoDefault);
    ("skills",      mkColumn "skills"       "jsonb"   false false false NoDefault);
    ("interests",   mkColumn "interests"    "jsonb"   false false false NoDefault);
    ("role",        mkColumn "role"         "varchar" false true  false
                      (DefaultLit (Str "USER"))) ])%list.

End Samples.

(* ================================================================= *)
(** ** Vocabulary for the behaviour of the handlers and of the router *)

Module Behaviour.
Import UsersController.

(** The test [dispatch] applies to a registration. *)
Definition route_matches (r : TeamsRoute.route) (m : TeamsRoute.method)
    (url : list string) : bool :=
  TeamsRoute.method_eqb (TeamsRoute.verb r) m
  && TeamsRoute.path_matches (TeamsRoute.path r) url.




(** A cell is a text that matches the ILIKE pattern; one of the three
    searched cells of the row does. *)
Definition ilike_cell (v : value) (p : string) : bool :=
  match v with
  | Str x => ilike_text x p
  | _ => false
  end.

Definition ilike_columns (p : string) (r : row) : bool :=
  ilike_cell (cell r "fullName") p || ilike_cell (cell r "userName") p
  || ilike_cell (cell r "email") p.





(** The object [searchUsers] returns for a stored row. *)
Definition search_row (r : row) : row :=
  [ ("id", cell r "id"); ("fullName", cell r "fullName");
    ("username", cell r "userName"); ("email", cell r "email");
    ("avatarUrl", cell r "avatarUrl"); ("bio", cell r "bio") ].

(** The status of a thrown [ApiError]. *)
Definition api_error_code {A : Type} (r : result A) : option Z :=
  match r with
  | Throw (ApiError code _) => Some code
  | _ => None
  end.

(** The row belongs to the caller of the request. *)
Definition own_row (req : request) (r : row) : Prop :=
  cell r "id" = Str (user_id req).

End Behaviour.

(* ================================================================= *)
(** * Properties *)

(** ** The built-ins on samples *)

Example to_string_samples :
  to_string (Num 10) = "10" /\ to_string (Num (-3)) = "-3" /\
  to_string Undefined = "undefined" /\
  to_string (Arr [Str "5"; Null; Str "6"]) = "5,,6".
Proof. repeat split. Qed.

Example parseInt_samples :
  parseInt (Str "5") = Some 5%Z /\ parseInt (Str " -12px") = Some (-12)%Z /\
  parseInt (Str "0x1f") = Some 31%Z /\ parseInt (Str "abc") = None /\
  parseInt (Str "") = None /\ parseInt (Num 10) = Some 10%Z /\
  parseInt Undefined = None.
Proof. repeat split. Qed.

Example trim_samples :
  trim "  ali " = "ali" /\ trim " a b " = "a b" /\ trim "   " = "".
Proof. repeat split. Qed.

Example like_samples :
  like "a_c%" "abcdef" = true /\ like "a_c" "abcdef" = false /\
  like "50\%" "50%" = true /\ like "50\%" "500" = false /\
  ilike_text "Alice Liddell" "%LID%" = true.
Proof. repeat split. Qed.

(** ** The team router *)

Section TeamRoutes.
Import TeamsRoute.

Lemma dispatch_in_router (m : method) (url : list string) (r : route) :
  dispatch m url = Some r -> In r router.
Proof.
  unfold dispatch. intros H. apply find_some in H. tauto.
Qed.

Lemma stopped_without_token (pass : middleware -> bool) (r : route) :
  In r router -> pass verifyJWT = false ->
  forall c, run_chain pass (chain r) (target r) = Handled c ->
  c = getTeamById \/ c = getTeamsByHackathon.
Proof.
  intros Hin Hpass c.
  simpl in Hin.
  repeat (destruct Hin as [<- | Hin]; [simpl; rewrite ?Hpass; intros Hrun;
    first [discriminate Hrun | injection Hrun as <-; auto] | ]).
  contradiction.
Qed.

(** C8. The router registers exactly the nine team routes of the interface
    table with the stated authentication flag; a route that requires
    authentication has [verifyJWT] as the first element of its chain, so no
    request whose token is not verified reaches a controller other than
    [getTeamById] and [getTeamsByHackathon]; these two are reached whatever
    the middleware would answer; and with every middleware passing, each of
    the seven protected routes reaches its controller. *)
Theorem team_routes_authentication :
  map (fun r => (verb r, show_path (path r), requires_auth r)) router
    = interface_table
  /\ (forall r, In r router -> requires_auth r = true ->
        exists rest, chain r = verifyJWT :: rest)
  /\ (forall pass m url c,
        pass verifyJWT = false -> serve pass m url = Handled c ->
        c = getTeamById \/ c = getTeamsByHackathon)
  /\ (forall pass a s, serve pass GET [String a s] = Handled getTeamById)
  /\ (forall pass a s,
        serve pass GET ["hackathon"; String a s] = Handled getTeamsByHackathon)
  /\ (forall a s b u,
        let tid := String a s in
        let uid := String b u in
        let all := fun _ : middleware => true in
        serve all POST [] = Handled createTeam
        /\ serve all PUT [tid] = Handled updateTeamInfo
        /\ serve all POST [tid; "join"] = Handled joinTeam
        /\ serve all DELETE [tid; "leave"] = Handled leaveTeam
        /\ serve all DELETE [tid; "members"; uid] = Handled removeMember
        /\ serve all PUT [tid; "transfer"; uid] = Handled transferLeadership
        /\ serve all GET ["user"; "my-teams"] = Handled getUserTeams).
Proof.
  split; [reflexivity | ].
  split.
  { intros r Hin Hauth. simpl in Hin.
    repeat (destruct Hin as [<- | Hin];
            [first [discriminate Hauth | eexists; reflexivity] | ]).
    contradiction. }
  split.
  { intros pass m url c Hpass Hserve. unfold serve in Hserve.
    destruct (dispatch m url) as [r | ] eqn:Hd; [ | discriminate].
    eapply stopped_without_token; eauto using dispatch_in_router. }
  split; [reflexivity | ].
  split.
  { intros pass a s. unfold serve, dispatch. simpl.
    reflexivity. }
  intros a s b u. cbv zeta. unfold serve, dispatch. simpl.
  repeat split; try reflexivity.
Qed.

End TeamRoutes.

(** ** LIKE patterns *)

Section LikePatterns.
Import Spec.







Lemma lower_app (a b : string) : lower (a ++ b) = lower a ++ lower b.
Proof.
  induction a as [ | c a IH]; simpl; [reflexivity | now rewrite IH].
Qed.




End LikePatterns.

(** ** ORDER BY and LIMIT *)

Section Ordering.

Variable k : string.

Let le (a b : row) : Prop := row_le k a b = true.

Lemma cell_le_total (a b : value) : cell_le a b = false -> cell_le b a = true.
Proof.
  destruct a, b; simpl; try discriminate; try reflexivity.
  intros H. destruct (String.leb_total s s0) as [H' | H']; congruence.
Qed.

Lemma insert_sorted_In (r x : row) (l : list row) :
  In x (insert_sorted k r l) <-> x = r \/ In x l.
Proof.
  induction l as [ | y l IH]; simpl.
  - intuition.
  - destruct (row_le k r y); simpl; rewrite ?IH; intuition.
Qed.

Lemma order_by_In (x : row) (l : list row) :
  In x (order_by k l) <-> In x l.
Proof.
  induction l as [ | y l IH]; simpl; [tauto | ].
  rewrite insert_sorted_In, IH. intuition.
Qed.

Lemma insert_sorted_HdRel (r a : row) (l : list row) :
  le a r -> HdRel le a l -> HdRel le a (insert_sorted k r l).
Proof.
  intros Har Hal. destruct l as [ | y l]; simpl.
  - constructor. exact Har.
  - destruct (row_le k r y); constructor; [exact Har | ].
    inversion Hal; assumption.
Qed.

Lemma insert_sorted_Sorted (r : row) (l : list row) :
  Sorted le l -> Sorted le (insert_sorted k r l).
Proof.
  induction 1 as [ | y l Hl IH Hy]; simpl.
  - repeat constructor.
  - destruct (row_le k r y) eqn:Hry.
    + constructor; [constructor; assumption | constructor; exact Hry].
    + constructor; [exact IH | ].
      apply insert_sorted_HdRel; [ | exact Hy].
      apply cell_le_total. exact Hry.
Qed.

Lemma order_by_Sorted (l : list row) : Sorted le (order_by k l).
Proof.
  induction l as [ | r l IH]; simpl.
  - constructor.
  - apply insert_sorted_Sorted, IH.
Qed.

Lemma order_by_length (l : list row) :
  List.length (order_by k l) = List.length l.
Proof.
  assert (Hins : forall r l', List.length (insert_sorted k r l')
                              = S (List.length l')).
  { intros r l'. induction l' as [ | y l' IH]; simpl; [reflexivity | ].
    destruct (row_le k r y); simpl; [reflexivity | now rewrite IH]. }
  induction l as [ | r l IH]; simpl; [reflexivity | ].
  now rewrite Hins, IH.
Qed.

End Ordering.

Lemma Sorted_firstn {A : Type} (R : A -> A -> Prop) (n : nat) (l : list A) :
  Sorted R l -> Sorted R (firstn n l).
Proof.
  revert l. induction n as [ | n IH]; intros l Hl; simpl.
  - constructor.
  - destruct Hl as [ | x l Hl Hx]; [constructor | ].
    constructor; [apply IH, Hl | ].
    destruct Hx as [ | y l Hxy]; destruct n; simpl; constructor.
    exact Hxy.
Qed.


Lemma In_firstn {A : Type} (n : nat) (l : list A) (x : A) :
  In x (firstn n l) -> In x l.
Proof.
  revert l. induction n as [ | n IH]; intros [ | y l]; simpl; try tauto.
  intros [H | H]; [left; exact H | right; apply IH, H].
Qed.

(** ** searchUsers *)

Section SearchUsers.
Import UsersController Spec.

Variable irregular_limit : option Z -> limit_clause.


Lemma trim_empty_query (s : string) :
  (2 <= String.length (trim s))%nat -> truthy (Str s) = true.
Proof.
  destruct s; simpl; [lia | reflexivity].
Qed.




Lemma run_select_no_api_error (sel : selection) (c : cond)
    (order : option (option string)) (lim : limit_clause) (rows : list row)
    (code : Z) (msg : string) :
  run_select sel c order lim rows <> Throw (ApiError code msg).
Proof.
  unfold run_select.
  destruct (selection_ok sel); simpl; [ | discriminate].
  destruct (well_formed c); simpl; [ | discriminate].
  destruct order as [[o | ] | ]; simpl; try discriminate;
    destruct lim; simpl; discriminate.
Qed.

(** C3. [searchUsers] throws the 400 error exactly when the [q] parameter
    is absent or is a text whose trimmed length is below 2, and then the
    response carries no row. *)
Theorem searchUsers_validation (usersTable : table) (req : request)
    (users : list row) :
  (validation_error (searchUsers usersTable irregular_limit req users) <->
   lookup "q" (query req) = None \/
   exists s, lookup "q" (query req) = Some (QStr s) /\
             (String.length (trim s) < 2)%nat)
  /\ (validation_error (searchUsers usersTable irregular_limit req users) ->
      rows_returned (searchUsers usersTable irregular_limit req users) = []).
Proof.
  split.
  2:{ intros (msg & ->). reflexivity. }
  unfold validation_error, searchUsers, query_param.
  destruct (lookup "q" (query req)) as [[s | items | fields] | ] eqn:Hq; simpl.
  - destruct s as [ | a s]; simpl.
    + split; [ | eauto]. intros _. right. exists "". split; [reflexivity | ].
      simpl. lia.
    + destruct (String.length (trim (String a s)) <? 2)%nat eqn:Hlen.
      * split; [ | eauto]. intros _. right. exists (String a s).
        split; [reflexivity | apply Nat.ltb_lt, Hlen].
      * split.
        -- intros (msg & H). exfalso.
           match type of H with
           | bind ?m _ = _ => destruct m eqn:Hsel
           end; simpl in H; [discriminate | ].
           injection H as ->.
           eapply run_select_no_api_error; eassumption.
        -- intros [H | (s' & H & Hs')]; [discriminate | ].
           injection H as <-. apply Nat.ltb_ge in Hlen. lia.
  - split; [intros (msg & H); discriminate | ].
    intros [H | (s' & H & _)]; discriminate.
  - split; [intros (msg & H); discriminate | ].
    intros [H | (s' & H & _)]; discriminate.
  - split; [auto | eauto].
Qed.

End SearchUsers.

(** ** Writes *)

Section Writes.

Lemma cell_assign (r : row) (k : string) (v : value) (k' : string) :
  cell (assign r k v) k' = if String.eqb k' k then v else cell r k'.
Proof.
  induction r as [ | [k0 v0] r IH]; simpl.
  - reflexivity.
  - destruct (String.eqb k k0) eqn:Hk; simpl.
    + apply String.eqb_eq in Hk. subst k0.
      destruct (String.eqb k' k); reflexivity.
    + rewrite IH. destruct (String.eqb k' k0) eqn:Hk'; [ | reflexivity].
      apply String.eqb_eq in Hk'. subst k0.
      destruct (String.eqb k' k) eqn:Hkk; [ | reflexivity].
      apply String.eqb_eq in Hkk. subst k'.
      rewrite String.eqb_refl in Hk. discriminate.
Qed.

(** A cell whose key is not written keeps its value. *)
Lemma cell_write (t : table) (set : list (string * value)) (r : row)
    (k : string) :
  existsb (String.eqb k) (map fst set) = false ->
  cell (write t set r) k = cell r k.
Proof.
  revert r. induction set as [ | [k0 v0] set IH]; intros r H; simpl in *.
  - reflexivity.
  - apply orb_false_iff in H as [Hk H].
    destruct (declared t k0); rewrite (IH _ H); [ | reflexivity].
    rewrite cell_assign, Hk. reflexivity.
Qed.

Lemma defined_entries_keys (set : list (string * value)) (k : string) :
  existsb (String.eqb k) (map fst set) = false ->
  existsb (String.eqb k) (map fst (defined_entries set)) = false.
Proof.
  induction set as [ | [k0 v0] set IH]; simpl; [reflexivity | ].
  intros H. apply orb_false_iff in H as [Hk H].
  destruct (negb (is_undefined v0)); simpl; [rewrite Hk | ]; auto.
Qed.

(** The rows after an update: each row is kept or written. *)
Lemma run_update_rows (t : table) (set : list (string * value)) (c : cond)
    (ret : option selection) (rows : list row) :
  exists f : row -> row,
    snd (run_update t set c ret rows) = map f rows /\
    forall r, f r = r \/ f r = write t (defined_entries set) r.
Proof.
  unfold run_update.
  destruct (defined_entries set) as [ | e es] eqn:He.
  { exists (fun r => r). rewrite map_id. auto. }
  destruct (negb match ret with
                 | Some sel => selection_ok sel
                 | None => true
                 end).
  { exists (fun r => r). rewrite map_id. auto. }
  destruct (negb (well_formed c)).
  { exists (fun r => r). rewrite map_id. auto. }
  exists (fun r => if holds c r then write t (e :: es) r else r).
  split; [reflexivity | ].
  intros r. destruct (holds c r); auto.
Qed.

Lemma run_update_frame (t : table) (set : list (string * value)) (c : cond)
    (ret : option selection) (rows : list row) (P : string -> bool) :
  (forall k, P k = true -> existsb (String.eqb k) (map fst set) = false) ->
  Forall2 (fun r r' => forall k, P k = true -> cell r' k = cell r k)
          rows (snd (run_update t set c ret rows)).
Proof.
  intros HP.
  destruct (run_update_rows t set c ret rows) as (f & -> & Hf).
  induction rows as [ | r rows IH]; simpl; constructor; [ | exact IH].
  intros k Hk. destruct (Hf r) as [-> | ->]; [reflexivity | ].
  apply cell_write, defined_entries_keys, HP, Hk.
Qed.

End Writes.

(** ** updateUserProfile and uploadProfileImage *)

Section ProfileWrites.
Import UsersController Spec.

Variable now : Z.

(** C9. Whatever the table declares and whatever the request carries,
    [updateUserProfile] leaves the cells [email], [password], [avatarUrl],
    [isVerified], [code] and [expiresAt] of every row as they were. *)
Theorem updateUserProfile_frame (usersTable : table) (req : request)
    (users : list row) :
  Forall2 (fun r r' => forall k, in_frame k = true -> cell r' k = cell r k)
          users (snd (updateUserProfile usersTable now req users)).
Proof.
  unfold updateUserProfile.
  match goal with
  | |- context [run_update ?t ?s ?c ?ret ?rows] =>
      pose proof (run_update_frame t s c ret rows in_frame) as H;
      destruct (run_update t s c ret rows) as [written users'] eqn:Hrun
  end.
  simpl in H.
  replace (snd (match written with
                | Return [] => (Throw (ApiError 404 "User not found"), users')
                | Return (updated :: _) =>
                    (Return (respond 200 (Obj [("user", Obj updated)])
                               "Profile updated successfully"), users')
                | Throw e => (Throw e, users')
                end)) with users'
    by (destruct written as [[ | ? ?] | ?]; reflexivity).
  apply H. intros k Hk.
  unfold in_frame, frame_keys in Hk. simpl in Hk.
  repeat (apply orb_true_iff in Hk as [Hk | Hk];
          [apply String.eqb_eq in Hk; subst k; reflexivity | ]).
  discriminate.
Qed.

Variable uploadBufferToCloudinary :
  string -> list (string * value) -> result value.

Let upload := uploadProfileImage Schema.usersTable now uploadBufferToCloudinary.

(** The row of the caller after a successful upload. *)
Let with_avatar (uid url : string) (r : row) : row :=
  if str_eqb (cell r "id") (Str uid) then assign r "avatarUrl" (Str url)
  else r.

(** C5. When the storage call rejects, [uploadProfileImage] throws the 500
    error "Cloudinary upload failed" and the table is unchanged; when it
    resolves to a result whose [secure_url] is the text [url], the handler
    answers 200 with [{ avatarUrl: url }], the [avatarUrl] cell of every row
    of the caller becomes [url], and no other cell and no other row
    changes. *)
Theorem uploadProfileImage_storage (req : request) (users : list row)
    (buffer : string) :
  file req = Some buffer ->
  (forall e,
     uploadBufferToCloudinary buffer (upload_options now req) = Throw e ->
     upload req users =
       (Throw (ApiError 500 "Cloudinary upload failed"), users))
  /\
  (forall res url,
     uploadBufferToCloudinary buffer (upload_options now req) = Return res ->
     member res "secure_url" = Return (Str url) ->
     upload req users =
       (Return (respond 200 (Obj [ ("avatarUrl", Str url) ])
                  "Profile image updated"),
        map (with_avatar (user_id req) url) users)
     /\ Forall2 (fun r r' =>
                   (cell r "id" = Str (user_id req) ->
                    cell r' "avatarUrl" = Str url)
                   /\ (cell r "id" <> Str (user_id req) -> r' = r)
                   /\ (forall k, k <> "avatarUrl" -> cell r' k = cell r k))
                users (map (with_avatar (user_id req) url) users)).
Proof.
  intros Hfile. unfold upload, uploadProfileImage. rewrite Hfile. split.
  - intros e ->. reflexivity.
  - intros res url -> ->. split; [reflexivity | ].
    induction users as [ | r rows IH]; simpl; constructor; [ | exact IH].
    unfold with_avatar, str_eqb.
    destruct (cell r "id") as [ | | b | z | s | items | fields] eqn:Hid;
      try (split; [intros H; discriminate H | split; reflexivity]).
    destruct (String.eqb s (user_id req)) eqn:Hs.
    + split; [ | split].
      * intros _. rewrite cell_assign. reflexivity.
      * apply String.eqb_eq in Hs. subst s. intros H. now contradiction H.
      * intros k Hk. rewrite cell_assign.
        apply String.eqb_neq in Hk. rewrite Hk. reflexivity.
    + split; [ | split; reflexivity].
      intros H. injection H as ->. rewrite String.eqb_refl in Hs.
      discriminate.
Qed.

End ProfileWrites.

(** ** Reads and the secret columns *)

Section Secrets.
Import UsersController Spec.

Let agree (r1 r2 : row) : Prop :=
  forall k, is_secret k = false -> cell r1 k = cell r2 k.

Lemma agree_ref (o : option string) (r1 r2 : row) (k : string) :
  public_ref o = true -> o = Some k -> agree r1 r2 -> cell r1 k = cell r2 k.
Proof.
  intros Ho -> Hr. apply Hr. simpl in Ho.
  now apply negb_true_iff in Ho.
Qed.

Lemma holds_public :
  forall (c : cond) (r1 r2 : row),
    public_cond c = true -> agree r1 r2 -> holds c r1 = holds c r2.
Proof.
  fix IH 1. intros [o v | o p | cs] r1 r2 Hc Hr; simpl in Hc |- *.
  - destruct o as [k | ]; [ | reflexivity].
    now rewrite (agree_ref (Some k) r1 r2 k Hc eq_refl Hr).
  - destruct o as [k | ]; [ | reflexivity].
    now rewrite (agree_ref (Some k) r1 r2 k Hc eq_refl Hr).
  - induction cs as [ | c cs IHcs]; simpl in Hc |- *; [reflexivity | ].
    apply andb_true_iff in Hc as [H1 H2].
    rewrite (IH c r1 r2 H1 Hr), (IHcs H2). reflexivity.
Qed.

Lemma filter_agree (c : cond) (l1 l2 : list row) :
  public_cond c = true -> Forall2 agree l1 l2 ->
  Forall2 agree (filter (holds c) l1) (filter (holds c) l2).
Proof.
  intros Hc. induction 1 as [ | r1 r2 l1 l2 Hr Hl IH]; simpl.
  - constructor.
  - rewrite (holds_public c r1 r2 Hc Hr).
    destruct (holds c r2); [constructor | ]; assumption.
Qed.

Lemma insert_sorted_agree (k : string) (r1 r2 : row) (l1 l2 : list row) :
  is_secret k = false -> agree r1 r2 -> Forall2 agree l1 l2 ->
  Forall2 agree (insert_sorted k r1 l1) (insert_sorted k r2 l2).
Proof.
  intros Hk Hr. induction 1 as [ | x1 x2 l1 l2 Hx Hl IH]; simpl.
  - repeat constructor. exact Hr.
  - unfold row_le. rewrite (Hr k Hk), (Hx k Hk).
    destruct (cell_le (cell r2 k) (cell x2 k)); repeat constructor; assumption.
Qed.

Lemma order_by_agree (k : string) (l1 l2 : list row) :
  is_secret k = false -> Forall2 agree l1 l2 ->
  Forall2 agree (order_by k l1) (order_by k l2).
Proof.
  intros Hk. induction 1; simpl.
  - constructor.
  - apply insert_sorted_agree; assumption.
Qed.

Lemma firstn_agree (n : nat) (l1 l2 : list row) :
  Forall2 agree l1 l2 -> Forall2 agree (firstn n l1) (firstn n l2).
Proof.
  revert l1 l2. induction n as [ | n IH]; intros l1 l2 H; simpl.
  - constructor.
  - destruct H; constructor; auto.
Qed.

Lemma project_agree (sel : selection) (r1 r2 : row) :
  public_selection sel = true -> agree r1 r2 ->
  project sel r1 = project sel r2.
Proof.
  intros Hs Hr. induction sel as [ | [out [k | ]] sel IH]; simpl in Hs |- *.
  - reflexivity.
  - apply andb_true_iff in Hs as [Hk Hs]. rewrite (IH Hs).
    rewrite (Hr k); [reflexivity | ]. now apply negb_true_iff in Hk.
  - rewrite IH; [reflexivity | exact Hs].
Qed.

Lemma map_project_agree (sel : selection) (l1 l2 : list row) :
  public_selection sel = true -> Forall2 agree l1 l2 ->
  map (project sel) l1 = map (project sel) l2.
Proof.
  intros Hs. induction 1 as [ | r1 r2 l1 l2 Hr Hl IH]; simpl.
  - reflexivity.
  - now rewrite (project_agree sel r1 r2 Hs Hr), IH.
Qed.

(** A query over public columns cannot tell the two stores apart. *)
Lemma run_select_public (sel : selection) (c : cond)
    (order : option (option string)) (lim : limit_clause)
    (u1 u2 : list row) :
  public_selection sel = true -> public_cond c = true ->
  match order with Some o => public_ref o | None => true end = true ->
  same_public u1 u2 ->
  run_select sel c order lim u1 = run_select sel c order lim u2.
Proof.
  intros Hs Hc Ho Hu. unfold run_select, apply_limit.
  destruct (negb (selection_ok sel)); [reflexivity | ].
  destruct (negb (well_formed c)); [reflexivity | ].
  pose proof (filter_agree c u1 u2 Hc Hu) as Hf.
  destruct order as [[k | ] | ]; simpl; try reflexivity.
  - simpl in Ho. apply negb_true_iff in Ho.
    pose proof (order_by_agree k _ _ Ho Hf) as Hs'.
    destruct lim as [ | n | ]; simpl; try reflexivity.
    + now rewrite (map_project_agree sel _ _ Hs Hs').
    + now rewrite (map_project_agree sel _ _ Hs (firstn_agree n _ _ Hs')).
  - destruct lim as [ | n | ]; simpl; try reflexivity.
    + now rewrite (map_project_agree sel _ _ Hs Hf).
    + now rewrite (map_project_agree sel _ _ Hs (firstn_agree n _ _ Hf)).
Qed.

Lemma public_field (t : table) (k : string) :
  is_secret k = false -> public_ref (field t k) = true.
Proof.
  intros Hk. unfold field. destruct (declared t k); simpl; [ | reflexivity].
  now rewrite Hk.
Qed.

(** The rows of a result have the keys of the selection. *)
Lemma run_select_keys (sel : selection) (c : cond)
    (order : option (option string)) (lim : limit_clause)
    (rows found : list row) :
  run_select sel c order lim rows = Return found ->
  Forall (fun r => map fst r = map fst sel) found.
Proof.
  unfold run_select.
  destruct (negb (selection_ok sel)); [discriminate | ].
  destruct (negb (well_formed c)); [discriminate | ].
  assert (Hp : forall l, Forall (fun r => map fst r = map fst sel)
                                (map (project sel) l)).
  { intros l. apply Forall_forall. intros r Hr.
    apply in_map_iff in Hr as (r0 & <- & _).
    unfold project. rewrite map_map. reflexivity. }
  destruct order as [[k | ] | ]; simpl; try discriminate;
    destruct lim; simpl; try discriminate;
    intros H; injection H as <-; apply Hp.
Qed.

End Secrets.

Section ReadsHideSecrets.
Import UsersController Spec.

Lemma secret_not_listed (l : list string) :
  forallb (fun k => negb (is_secret k)) l = true ->
  forall k, In k secret_keys -> ~ In k l.
Proof.
  intros Hl k Hk Hin.
  rewrite forallb_forall in Hl. specialize (Hl k Hin).
  apply negb_true_iff in Hl.
  assert (is_secret k = true); [ | congruence].
  unfold is_secret. apply existsb_exists. exists k.
  split; [exact Hk | apply String.eqb_refl].
Qed.

Lemma keys_of_rows (found : list row) (k : string) :
  In k (keys_of (Arr (map Obj found))) ->
  exists r, In r found /\ In k (map fst r).
Proof.
  simpl. rewrite in_flat_map. intros (x & Hx & Hk).
  apply in_map_iff in Hx as (r & <- & Hr). eauto.
Qed.

(** Keys of the response of a read that returns the first row found. *)
Lemma first_row_keys (sel : selection) (c : cond) (users : list row)
    (msg : string) (k : string) :
  forallb (fun k => negb (is_secret k)) (map fst sel) = true ->
  In k secret_keys ->
  ~ In k (response_keys
            (rows <- run_select sel c None (Limit 1) users ;;
             match rows with
             | [] => Throw (ApiError 404 "User not found")
             | user :: _ => Return (respond 200 (Obj user) msg)
             end)).
Proof.
  intros Hsel Hk.
  destruct (run_select sel c None (Limit 1) users) as [rows | e] eqn:Hrun;
    simpl; [ | tauto].
  destruct rows as [ | user rows]; simpl; [tauto | ].
  apply run_select_keys in Hrun. inversion Hrun as [ | ? ? Hu _]; subst.
  rewrite Hu. apply secret_not_listed; assumption.
Qed.

(** C10. Two stores whose rows differ at most in [password], [code],
    [expiresAt] and [isVerified] get the same answer from [getUserProfile],
    [getUserProfileByUsername] and [searchUsers] on every request, and no
    answer carries one of these four keys. *)
Theorem reads_hide_secrets (usersTable : table)
    (irregular_limit : option Z -> limit_clause) (req : request)
    (u1 u2 : list row) :
  same_public u1 u2 ->
  getUserProfile usersTable req u1 = getUserProfile usersTable req u2
  /\ getUserProfileByUsername usersTable req u1
     = getUserProfileByUsername usersTable req u2
  /\ searchUsers usersTable irregular_limit req u1
     = searchUsers usersTable irregular_limit req u2
  /\ (forall k, In k secret_keys ->
        ~ In k (response_keys (getUserProfile usersTable req u1))
        /\ ~ In k (response_keys (getUserProfileByUsername usersTable req u1))
        /\ ~ In k (response_keys
                     (searchUsers usersTable irregular_limit req u1))).
Proof.
  intros Hu.
  assert (Hpub : forall k, is_secret k = false ->
                           public_ref (field usersTable k) = true)
    by (intros k; apply public_field).
  split; [ | split; [ | split]].
  - unfold getUserProfile.
    destruct (negb (truthy (route_param req "userId"))); [reflexivity | ].
    rewrite (run_select_public _ _ None (Limit 1) u1 u2); auto;
      simpl; rewrite ?Hpub by reflexivity; reflexivity.
  - unfold getUserProfileByUsername.
    destruct (negb (truthy (query_param req "userName"))); [reflexivity | ].
    rewrite (run_select_public _ _ None (Limit 1) u1 u2); auto;
      simpl; rewrite ?Hpub by reflexivity; reflexivity.
  - unfold searchUsers.
    destruct (negb (truthy (query_param req "q"))); [reflexivity | ].
    destruct (query_param req "q"); try reflexivity.
    destruct (String.length (trim s) <? 2)%nat; [reflexivity | ].
    rewrite (run_select_public _ _ _ _ u1 u2); auto;
      simpl; rewrite ?Hpub by reflexivity; reflexivity.
  - intros k Hk. split; [ | split].
    + unfold getUserProfile.
      destruct (negb (truthy (route_param req "userId"))); [simpl; tauto | ].
      apply first_row_keys; [reflexivity | exact Hk].
    + unfold getUserProfileByUsername.
      destruct (negb (truthy (query_param req "userName")));
        [simpl; tauto | ].
      apply first_row_keys; [reflexivity | exact Hk].
    + unfold searchUsers.
      destruct (negb (truthy (query_param req "q"))); [simpl; tauto | ].
      destruct (query_param req "q"); try (simpl; tauto).
      destruct (String.length (trim s) <? 2)%nat; [simpl; tauto | ].
      match goal with
      | |- context [run_select ?sel ?c ?o ?lim ?rows] =>
          destruct (run_select sel c o lim rows) as [found | e] eqn:Hrun
      end; [ | simpl; tauto].
      intros Hin. apply keys_of_rows in Hin as (r & Hr & Hin).
      apply run_select_keys in Hrun. rewrite Forall_forall in Hrun.
      rewrite (Hrun r Hr) in Hin. revert Hin.
      apply secret_not_listed; [reflexivity | exact Hk].
Qed.

End ReadsHideSecrets.

(** ** The team service: capacity *)

Section Capacity.
Import TeamService.

(** What every reachable store satisfies. *)
Let consistent (st : store) : Prop :=
  NoDup (map id (teams st))
  /\ (forall t, In t (teams st) -> id t < next_id st)
  /\ (forall m, In m (memberships st) -> teamId m < next_id st)
  /\ (forall t, In t (teams st) ->
        (memberCount st (id t) <= maxMembers t)%Z).

Lemma find_team_some (st : store) (tid : UUID) (t : Team) :
  find_team st tid = Some t -> In t (teams st) /\ id t = tid.
Proof.
  unfold find_team. intros H. apply find_some in H as [Hin Hid].
  split; [exact Hin | now apply Nat.eqb_eq].
Qed.

Lemma NoDup_id_unique (ts : list Team) (a b : Team) :
  NoDup (map id ts) -> In a ts -> In b ts -> id a = id b -> a = b.
Proof.
  induction ts as [ | x ts IH]; simpl; [tauto | ].
  intros Hnd Ha Hb Hab. inversion Hnd as [ | ? ? Hx Hnd']; subst.
  destruct Ha as [-> | Ha], Hb as [-> | Hb]; auto.
  - exfalso. apply Hx. rewrite Hab. now apply in_map.
  - exfalso. apply Hx. rewrite <- Hab. now apply in_map.
Qed.

Lemma count_app (tid : UUID) (ms : list TeamMembership) (m : TeamMembership)
    (ts : list Team) (n : UUID) :
  memberCount (mkStore ts (ms ++ [m]) n) tid =
  (memberCount (mkStore ts ms n) tid
   + if Nat.eqb (teamId m) tid then 1 else 0)%Z.
Proof.
  unfold memberCount, members_of. simpl. rewrite filter_app, length_app.
  simpl. destruct (Nat.eqb (teamId m) tid); simpl; lia.
Qed.

Lemma count_filter (tid : UUID) (p : TeamMembership -> bool)
    (ms : list TeamMembership) (ts ts' : list Team) (n n' : UUID) :
  (memberCount (mkStore ts' (filter p ms) n') tid
   <= memberCount (mkStore ts ms n) tid)%Z.
Proof.
  unfold memberCount, members_of. simpl. apply inj_le.
  induction ms as [ | m ms IH]; simpl; [lia | ].
  destruct (p m); simpl; destruct (Nat.eqb (teamId m) tid); simpl; lia.
Qed.

(** The member count reads the memberships only. *)
Ltac same_members st :=
  repeat match goal with
  | |- context [memberCount (mkStore ?ts (memberships st) ?n) ?x] =>
      change (memberCount (mkStore ts (memberships st) n) x)
        with (memberCount st x)
  end.

Lemma replace_team_ids (t' : Team) (ts : list Team) :
  map id (replace_team t' ts) = map id ts.
Proof.
  induction ts as [ | x ts IH]; simpl; [reflexivity | ].
  rewrite IH. destruct (Nat.eqb (id x) (id t')) eqn:Hx; [ | reflexivity].
  apply Nat.eqb_eq in Hx. now rewrite Hx.
Qed.

Lemma replace_team_In (t' x : Team) (ts : list Team) :
  In x (replace_team t' ts) ->
  x = t' \/ (In x ts /\ id x <> id t').
Proof.
  unfold replace_team. intros H. apply in_map_iff in H as (y & Hy & Hin).
  destruct (Nat.eqb (id y) (id t')) eqn:Hid.
  - left. now symmetry.
  - right. subst y. split; [exact Hin | now apply Nat.eqb_neq].
Qed.

Lemma store_eta (st : store) :
  st = mkStore (teams st) (memberships st) (next_id st).
Proof. destruct st; reflexivity. Qed.

Lemma createTeam_consistent (st st' : store) (hid creator : UUID)
    (nm descr : string) (cap now : Z) :
  consistent st -> createTeam st hid creator nm descr cap now = inr st' ->
  consistent st'.
Proof.
  intros (Hnd & Hid & Hms & Hcap). unfold createTeam.
  destruct ((cap <? 1)%Z || String.eqb nm "") eqn:Hv; [discriminate | ].
  destruct (in_hackathon st hid creator); [discriminate | ].
  intros H. injection H as <-.
  apply orb_false_iff in Hv as [Hc _]. apply Z.ltb_ge in Hc.
  split; [ | split; [ | split]]; simpl.
  - rewrite map_app. simpl. apply NoDup_app.
    + exact Hnd.
    + repeat constructor. simpl. tauto.
    + intros x Hx [<- | []]. apply in_map_iff in Hx as (t & Ht & Hin).
      specialize (Hid t Hin). lia.
  - intros t Ht. apply in_app_or in Ht as [Ht | [<- | []]]; simpl.
    + specialize (Hid t Ht). lia.
    + lia.
  - intros m Hm. apply in_app_or in Hm as [Hm | [<- | []]]; simpl.
    + specialize (Hms m Hm). lia.
    + lia.
  - intros t Ht. rewrite count_app. simpl.
    apply in_app_or in Ht as [Ht | [<- | []]]; simpl.
    + specialize (Hid t Ht). specialize (Hcap t Ht).
      replace (Nat.eqb (next_id st) (id t)) with false
        by (symmetry; apply Nat.eqb_neq; lia).
      same_members st. lia.
    + rewrite Nat.eqb_refl.
      same_members st.
      assert (memberCount st (next_id st) = 0%Z).
      { unfold memberCount, members_of.
        replace (filter _ (memberships st)) with (@nil TeamMembership);
          [reflexivity | ].
        symmetry. induction (memberships st) as [ | m ms IH];
          [reflexivity | ].
        simpl. replace (Nat.eqb (teamId m) (next_id st)) with false.
        - apply IH. intros m' Hm'. apply Hms. now right.
        - symmetry. apply Nat.eqb_neq.
          specialize (Hms m (or_introl eq_refl)). lia. }
      lia.
Qed.

Lemma joinTeam_inserts (st st' : store) (tid uid : UUID) (now : Z) :
  joinTeam st tid uid now = inr st' ->
  exists t, find_team st tid = Some t
    /\ (memberCount st tid < maxMembers t)%Z
    /\ st' = mkStore (teams st)
                     (memberships st ++ [mkMembership tid uid now])
                     (next_id st).
Proof.
  unfold joinTeam. destruct (find_team st tid) as [t | ]; [ | discriminate].
  destruct (maxMembers t <=? memberCount st tid)%Z eqn:Hfull;
    [discriminate | ].
  destruct (is_member st tid uid); [discriminate | ].
  intros H. injection H as <-. exists t.
  apply Z.leb_gt in Hfull. auto.
Qed.

Lemma joinTeam_consistent (st st' : store) (tid uid : UUID) (now : Z) :
  consistent st -> joinTeam st tid uid now = inr st' -> consistent st'.
Proof.
  intros (Hnd & Hid & Hms & Hcap) H.
  apply joinTeam_inserts in H as (t0 & Hfind & Hroom & ->).
  apply find_team_some in Hfind as [Hin0 Hid0].
  split; [ | split; [ | split]]; simpl; auto.
  - intros m Hm. apply in_app_or in Hm as [Hm | [<- | []]]; simpl; auto.
    specialize (Hid t0 Hin0). lia.
  - intros t Ht. rewrite count_app. simpl.
    same_members st.
    destruct (Nat.eqb tid (id t)) eqn:Heq.
    + apply Nat.eqb_eq in Heq.
      assert (t = t0) as -> by (apply (NoDup_id_unique (teams st)); auto; lia).
      rewrite Hid0. lia.
    + specialize (Hcap t Ht). lia.
Qed.

Lemma leaveTeam_consistent (st st' : store) (tid uid : UUID) :
  consistent st -> leaveTeam st tid uid = inr st' -> consistent st'.
Proof.
  intros (Hnd & Hid & Hms & Hcap). unfold leaveTeam.
  destruct (negb (is_member st tid uid)); [discriminate | ].
  destruct (find_team st tid) as [t0 | ]; [ | discriminate].
  destruct (Nat.eqb uid (leaderId t0)).
  - destruct (1 <? memberCount st tid)%Z; [discriminate | ].
    intros H. injection H as <-.
    split; [ | split; [ | split]]; simpl.
    + clear - Hnd. induction (teams st) as [ | x ts IH]; simpl; [constructor | ].
      inversion Hnd as [ | ? ? Hx Hnd']; subst.
      destruct (negb (Nat.eqb (id x) tid)); simpl; auto.
      constructor; auto. intros Hin. apply Hx.
      apply in_map_iff in Hin as (y & Hy & Hin).
      apply filter_In in Hin as [Hin _]. rewrite <- Hy. now apply in_map.
    + intros t Ht. apply filter_In in Ht as [Ht _]. auto.
    + intros m Hm. apply filter_In in Hm as [Hm _]. auto.
    + intros t Ht. apply filter_In in Ht as [Ht _].
      specialize (Hcap t Ht).
      pose proof (count_filter (id t)
                    (fun m => negb (Nat.eqb (teamId m) tid))
                    (memberships st) (teams st)
                    (filter (fun t' => negb (Nat.eqb (id t') tid)) (teams st))
                    (next_id st) (next_id st)) as Hle.
      rewrite <- store_eta in Hle. lia.
  - intros H. injection H as <-.
    split; [ | split; [ | split]]; simpl; auto.
    + intros m Hm. apply filter_In in Hm as [Hm _]. auto.
    + intros t Ht. specialize (Hcap t Ht).
      pose proof (count_filter (id t)
                    (fun m => negb (Nat.eqb (teamId m) tid
                                    && Nat.eqb (userId m) uid))
                    (memberships st) (teams st) (teams st)
                    (next_id st) (next_id st)) as Hle.
      rewrite <- store_eta in Hle. unfold remove_membership. lia.
Qed.

Lemma removeMember_consistent (st st' : store) (tid actor target : UUID) :
  consistent st -> removeMember st tid actor target = inr st' ->
  consistent st'.
Proof.
  intros (Hnd & Hid & Hms & Hcap). unfold removeMember.
  destruct (find_team st tid) as [t0 | ]; [ | discriminate].
  destruct (negb (Nat.eqb actor (leaderId t0))); [discriminate | ].
  destruct (Nat.eqb target (leaderId t0)); [discriminate | ].
  destruct (negb (is_member st tid target)); [discriminate | ].
  intros H. injection H as <-.
  split; [ | split; [ | split]]; simpl; auto.
  - intros m Hm. apply filter_In in Hm as [Hm _]. auto.
  - intros t Ht. specialize (Hcap t Ht).
    pose proof (count_filter (id t)
                  (fun m => negb (Nat.eqb (teamId m) tid
                                  && Nat.eqb (userId m) target))
                  (memberships st) (teams st) (teams st)
                  (next_id st) (next_id st)) as Hle.
    rewrite <- store_eta in Hle. unfold remove_membership. lia.
Qed.

(** Replacing a team by one with the same identifier and a capacity that
    covers its members keeps the store consistent. *)
Lemma replace_team_consistent (st : store) (t0 t' : Team) :
  consistent st -> In t0 (teams st) -> id t' = id t0 ->
  (memberCount st (id t0) <= maxMembers t')%Z ->
  consistent (mkStore (replace_team t' (teams st)) (memberships st)
                      (next_id st)).
Proof.
  intros (Hnd & Hid & Hms & Hcap) Hin Hsame Hroom.
  split; [ | split; [ | split]]; simpl; auto.
  - now rewrite replace_team_ids.
  - intros t Ht. apply replace_team_In in Ht as [-> | [Ht _]]; auto.
    rewrite Hsame. auto.
  - intros t Ht.
    same_members st.
    apply replace_team_In in Ht as [-> | [Ht _]]; auto.
    now rewrite Hsame.
Qed.

Lemma transferLeadership_consistent (st st' : store)
    (tid actor newLeader : UUID) :
  consistent st -> transferLeadership st tid actor newLeader = inr st' ->
  consistent st'.
Proof.
  intros Hst. unfold transferLeadership.
  destruct (find_team st tid) as [t0 | ] eqn:Hfind; [ | discriminate].
  destruct (negb (Nat.eqb actor (leaderId t0))); [discriminate | ].
  destruct (negb (is_member st tid newLeader)); [discriminate | ].
  intros H. injection H as <-.
  apply find_team_some in Hfind as [Hin _].
  apply (replace_team_consistent st t0); auto.
  simpl. now apply Hst.
Qed.

Lemma updateTeamInfo_consistent (st st' : store) (tid actor : UUID)
    (nm descr : option string) (cap : option Z) :
  consistent st -> updateTeamInfo st tid actor nm descr cap = inr st' ->
  consistent st'.
Proof.
  intros Hst. unfold updateTeamInfo.
  destruct (find_team st tid) as [t0 | ] eqn:Hfind; [ | discriminate].
  destruct (negb (Nat.eqb actor (leaderId t0))); [discriminate | ].
  match goal with
  | |- context [(?c <? memberCount st tid)%Z] =>
      destruct (c <? memberCount st tid)%Z eqn:Hroom
  end; [discriminate | ].
  intros H. injection H as <-.
  apply find_team_some in Hfind as [Hin Hid0].
  apply (replace_team_consistent st t0); auto.
  simpl. apply Z.ltb_ge in Hroom. now rewrite Hid0.
Qed.

Lemma step_consistent (st : store) (o : operation) :
  consistent st -> consistent (step st o).
Proof.
  intros Hst. unfold step.
  destruct (perform st o) as [e | st'] eqn:Hp; [exact Hst | ].
  destruct o; simpl in Hp.
  - eapply createTeam_consistent; eassumption.
  - eapply joinTeam_consistent; eassumption.
  - eapply leaveTeam_consistent; eassumption.
  - eapply removeMember_consistent; eassumption.
  - eapply transferLeadership_consistent; eassumption.
  - eapply updateTeamInfo_consistent; eassumption.
Qed.

Lemma run_consistent (ops : list operation) (st : store) :
  consistent st -> consistent (run st ops).
Proof.
  revert st. induction ops as [ | o ops IH]; intros st Hst; simpl.
  - exact Hst.
  - apply IH, step_consistent, Hst.
Qed.

Lemma initial_consistent : consistent initial.
Proof.
  repeat split; simpl; try tauto. constructor.
Qed.

(** C1. In every store reached from the empty one by any sequence of
    service calls, each team has at most [maxMembers] memberships; on such
    a store [joinTeam] answers [CapacityError] whenever the team exists and
    its member count has reached [maxMembers], and when it succeeds it adds
    exactly one membership and the team is still within its capacity. *)
Theorem member_count_within_capacity (ops : list operation) :
  let st := run initial ops in
  (forall t, In t (teams st) -> (memberCount st (id t) <= maxMembers t)%Z)
  /\ (forall tid uid now t,
        find_team st tid = Some t ->
        (maxMembers t <= memberCount st tid)%Z ->
        joinTeam st tid uid now = inl CapacityError)
  /\ (forall tid uid now st',
        joinTeam st tid uid now = inr st' ->
        exists t,
          find_team st tid = Some t /\ find_team st' tid = Some t
          /\ memberCount st' tid = (memberCount st tid + 1)%Z
          /\ (memberCount st' tid <= maxMembers t)%Z).
Proof.
  intros st.
  assert (Hst : consistent st) by apply run_consistent, initial_consistent.
  split; [apply Hst | split].
  - intros tid uid now t Hfind Hfull. unfold joinTeam. rewrite Hfind.
    apply Z.leb_le in Hfull. now rewrite Hfull.
  - intros tid uid now st' Hjoin.
    apply joinTeam_inserts in Hjoin as (t & Hfind & Hroom & ->).
    exists t. split; [exact Hfind | ]. split; [exact Hfind | ].
    rewrite count_app. simpl. rewrite Nat.eqb_refl.
    same_members st.
    split; lia.
Qed.

End Capacity.

(** ** The handlers on the declared table *)

Section DeclaredTable.
Import UsersController Spec Samples.

(** [updateUserProfile] names four keys in [returning] that [usersTable]
    does not declare: every call throws while the statement is built. *)
Lemma updateUserProfile_throws (now : Z) (req : request) (users : list row) :
  updateUserProfile Schema.usersTable now req users
  = (Throw undefined_column, users).
Proof. reflexivity. Qed.

(** So do the two profile reads, once past their parameter check. *)
Lemma getUserProfile_throws (req : request) (users : list row) :
  truthy (route_param req "userId") = true ->
  getUserProfile Schema.usersTable req users = Throw undefined_column.
Proof.
  intros H. unfold getUserProfile. rewrite H. reflexivity.
Qed.

Lemma getUserProfileByUsername_throws (req : request) (users : list row) :
  truthy (query_param req "userName") = true ->
  getUserProfileByUsername Schema.usersTable req users
  = Throw undefined_column.
Proof.
  intros H. unfold getUserProfileByUsername. rewrite H. reflexivity.
Qed.

(** [getUserProfile] selects [socialsLinks]; on any table without that key
    the read throws, whatever else the table declares. *)
Lemma getUserProfile_socialsLinks (t : table) (req : request)
    (users : list row) :
  field t "socialsLinks" = None ->
  truthy (route_param req "userId") = true ->
  getUserProfile t req users = Throw undefined_column.
Proof.
  intros Ht H. unfold getUserProfile. rewrite H, Ht.
  unfold run_select, selection_ok. simpl.
  repeat match goal with
         | |- context [field t ?k] => destruct (field t k)
         end; reflexivity.
Qed.

(** The name written by [updateUserProfile] when the body has no name
    parts. *)
Lemma profile_set_without_names (now : Z) (req : request) :
  get "firstName" (body req) = Undefined ->
  get "lastName" (body req) = Undefined ->
  get "fullName" (profile_set now req) = Str "undefined undefined".
Proof.
  intros H1 H2. unfold profile_set. rewrite H1, H2. reflexivity.
Qed.

(** C4 (the code at a failing input). The caller [u3] sends only
    [{ bio: "x" }].  On the declared table the handler throws and nothing
    is written, the supplied [bio] included; the [set] object carries
    [fullName = "undefined undefined"], and on a table that declares the
    profile columns this text replaces the stored name. *)
Theorem updateUserProfile_partial_body (now : Z) :
  let req := mkRequest "u3" None [ ("bio", Str "x") ] [] [] in
  updateUserProfile Schema.usersTable now req [ada]
    = (Throw undefined_column, [ada])
  /\ get "fullName" (profile_set now req) = Str "undefined undefined"
  /\ map (fun r => (cell r "fullName", cell r "bio"))
         (snd (updateUserProfile extendedTable now req [ada]))
     = [ (Str "undefined undefined", Str "x") ]
  /\ cell ada "fullName" = Str "Ada Lovelace".
Proof. repeat split. Qed.

(** C6 (the code at a failing input). For the stored user [u3] both
    profile reads throw the builder's [TypeError] instead of answering 200
    or 404, because their selections name keys the table object lacks;
    [getUserProfile] still throws on a table that declares the profile
    columns, because it names [socialsLinks] where the other handlers name
    [socialLinks]; [getUserProfileByUsername] then answers. *)
Theorem profile_reads_of_stored_user :
  let by_id := mkRequest "" None [] [] [ ("userId", "u3") ] in
  let by_name := mkRequest "" None [] [ ("userName", QStr "countess") ] [] in
  getUserProfile Schema.usersTable by_id users = Throw undefined_column
  /\ getUserProfileByUsername Schema.usersTable by_name users
     = Throw undefined_column
  /\ getUserProfile Schema.usersTable
       (mkRequest "" None [] [] [ ("userId", "nobody") ]) users
     = Throw undefined_column
  /\ getUserProfile extendedTable by_id users = Throw undefined_column
  /\ field extendedTable "socialsLinks" = None
  /\ field extendedTable "socialLinks" = Some "socialLinks"
  /\ rows_returned (getUserProfileByUsername extendedTable by_name users)
     = [ Obj [ ("id", Str "u3"); ("fullName", Str "Ada Lovelace");
               ("userName", Str "countess"); ("bio", Str "--");
               ("location", Null); ("avatarUrl", Str "avatar");
               ("socialLinks", Null); ("skills", Null);
               ("interests", Null) ] ].
Proof. repeat split. Qed.

(** C7 (the code). [usersTable] declares no [role] column, with or without
    a default, and [updateUserRole] throws on every request and writes
    nothing; on a table that declares [role] the handler overwrites the
    caller's role and answers 404 for an absent caller. *)
Theorem usersTable_has_no_role :
  declared Schema.usersTable "role" = None
  /\ field Schema.usersTable "role" = None
  /\ (forall now req users,
        updateUserRole Schema.usersTable now req users
        = (Throw undefined_column, users))
  /\ updateUserRole Schema.usersTable 5
       (mkRequest "u3" None [ ("role", Str "ORGANIZER") ] [] []) [ada]
     = (Throw undefined_column, [ada])
  /\ map (fun r => cell r "role")
         (snd (updateUserRole extendedTable 5
                 (mkRequest "u3" None [ ("role", Str "ORGANIZER") ] [] [])
                 [ada]))
     = [ Str "ORGANIZER" ]
  /\ fst (updateUserRole extendedTable 5
            (mkRequest "u9" None [ ("role", Str "ORGANIZER") ] [] []) [ada])
     = Throw (ApiError 404 "User not found").
Proof.
  repeat split.
  intros now req users. unfold updateUserRole, run_update.
  simpl. destruct (negb (is_undefined (get "role" (body req)))); reflexivity.
Qed.

End DeclaredTable.

(** ** Concrete requests *)

Section Concrete.
Import UsersController Spec Samples.

Lemma team_routes_authentication_witness :
  (exists rest,
     TeamsRoute.chain
       (TeamsRoute.mkRoute TeamsRoute.POST [TeamsRoute.Param "teamId";
                                            TeamsRoute.Lit "join"]
          [TeamsRoute.verifyJWT] TeamsRoute.joinTeam)
     = TeamsRoute.verifyJWT :: rest)
  /\ (TeamsRoute.getTeamById = TeamsRoute.getTeamById
      \/ TeamsRoute.getTeamById = TeamsRoute.getTeamsByHackathon).
Proof.
  destruct team_routes_authentication as (_ & Hfirst & Hstop & _).
  split.
  - apply Hfirst; [simpl; tauto | reflexivity].
  - apply (Hstop (fun m => negb (TeamsRoute.middleware_is_verifyJWT m))
                 TeamsRoute.GET ["t1"]); reflexivity.
Defined.

Lemma member_count_within_capacity_witness :
  let st := TeamService.run TeamService.initial
              [ TeamService.CreateTeam 7 1 "alpha" "first team" 1 100 ] in
  (TeamService.memberCount st 0%nat <= 1)%Z
  /\ TeamService.joinTeam st 0 2 200 = inl TeamService.CapacityError.
Proof.
  pose proof (member_count_within_capacity
                [ TeamService.CreateTeam 7 1 "alpha" "first team" 1 100 ])
    as (Hcount & Hfull & _).
  split.
  - apply (Hcount (TeamService.mkTeam 0 7 "alpha" "first team" 1 1)).
    simpl. tauto.
  - apply (Hfull 0 2 200%Z (TeamService.mkTeam 0 7 "alpha" "first team" 1 1)).
    + reflexivity.
    + vm_compute. intros H. discriminate H.
Defined.



(** The pattern characters of the query are not escaped: ["__"] stands for
    any two characters and finds rows that contain no underscore. *)
Lemma searchUsers_wildcard_query :
  exists found,
    searchUsers Schema.usersTable unlimited
      (mkRequest "u2" None [] [ ("q", QStr "__"); ("limit", QStr "1") ] [])
      users
    = Return (respond 200 (Arr (map Obj found)) "Users found successfully")
    /\ map (fun r => cell r "fullName") found = [ Str "Ada Lovelace" ]
    /\ plain "__" = false.
Proof.
  eexists. split; [reflexivity | ]. split; reflexivity.
Qed.

Lemma searchUsers_validation_witness :
  rows_returned
    (searchUsers Schema.usersTable unlimited
       (mkRequest "u2" None [] [ ("q", QStr " a ") ] []) users) = [].
Proof.
  apply (proj2 (searchUsers_validation unlimited Schema.usersTable
                  (mkRequest "u2" None [] [ ("q", QStr " a ") ] []) users)).
  apply (proj1 (searchUsers_validation unlimited Schema.usersTable
                  (mkRequest "u2" None [] [ ("q", QStr " a ") ] []) users)).
  right. exists " a ". split; [reflexivity | simpl; lia].
Defined.

Lemma uploadProfileImage_storage_witness :
  let req := mkRequest "u3" (Some "PNG-bytes") [] [] [] in
  uploadProfileImage Schema.usersTable 5 storage_down req users
    = (Throw (ApiError 500 "Cloudinary upload failed"), users)
  /\ map (fun r => cell r "avatarUrl")
         (snd (uploadProfileImage Schema.usersTable 5 storage_ok req users))
     = [ Str "avatar"; Str "avatar"; Str "https://cdn.example/user_u3_5" ].
Proof.
  intros req.
  pose proof (uploadProfileImage_storage 5 storage_down req users "PNG-bytes"
                eq_refl) as [Hdown _].
  pose proof (uploadProfileImage_storage 5 storage_ok req users "PNG-bytes"
                eq_refl) as [_ Hok].
  split.
  - apply (Hdown (Error "ECONNRESET")). reflexivity.
  - destruct (Hok (Obj [ ("secure_url",
                          Str "https://cdn.example/user_u3_5") ])
                  "https://cdn.example/user_u3_5" eq_refl eq_refl)
      as [Heq _].
    rewrite Heq. reflexivity.
Defined.

Lemma updateUserProfile_frame_witness :
  let req := mkRequest "u3" None
               [ ("firstName", Str "Augusta"); ("lastName", Str "King");
                 ("email", Str "mallory@example.org");
                 ("password", Str "chosen") ] [] [] in
  cell (hd [] (snd (updateUserProfile extendedTable 5 req [ada]))) "password"
  = Str "hash-3".
Proof.
  intros req.
  pose proof (updateUserProfile_frame 5 extendedTable req [ada]) as H.
  remember (snd (updateUserProfile extendedTable 5 req [ada])) as out.
  inversion H as [ | r r' l l' Hr Hl Heq1 Heq2]. subst r l.
  simpl. apply (Hr "password"). reflexivity.
Defined.

Lemma same_public_ada : same_public [ada] [ada'].
Proof.
  constructor; [ | constructor].
  intros k Hk. unfold ada, ada', user. simpl.
  repeat match goal with
         | |- context [String.eqb k ?x] =>
             destruct (String.eqb k x) eqn:E;
             [ apply String.eqb_eq in E; subst k;
               first [reflexivity | discriminate Hk] | clear E ]
         end.
  reflexivity.
Qed.

Lemma reads_hide_secrets_witness :
  searchUsers Schema.usersTable unlimited
    (mkRequest "u2" None [] [ ("q", QStr "love") ] []) [ada]
  = searchUsers Schema.usersTable unlimited
      (mkRequest "u2" None [] [ ("q", QStr "love") ] []) [ada'].
Proof.
  apply (reads_hide_secrets Schema.usersTable unlimited
           (mkRequest "u2" None [] [ ("q", QStr "love") ] []) [ada] [ada']
           same_public_ada).
Defined.

End Concrete.

(* ================================================================= *)
(** * Further behaviour of the handlers and of the router *)

(** ** searchUsers: what is returned *)

Section SearchBehaviour.
Import UsersController Spec Behaviour Samples.

Variable irregular_limit : option Z -> limit_clause.

Lemma lower_length (s : string) : String.length (lower s) = String.length s.
Proof.
  induction s as [ | c s IH]; simpl; [reflexivity | now rewrite IH].
Qed.

Lemma query_param_text (req : request) (k s : string) :
  lookup k (query req) = Some (QStr s) -> query_param req k = Str s.
Proof. unfold query_param. now intros ->. Qed.

Lemma query_param_is_text (req : request) (k s : string) :
  query_param req k = Str s -> lookup k (query req) = Some (QStr s).
Proof.
  unfold query_param.
  destruct (lookup k (query req)) as [[s' | items | fields] | ];
    simpl; intros H; try discriminate.
  now injection H as ->.
Qed.

(** Two conditions that keep the same rows give the same result. *)
Lemma run_select_cond_ext (sel : selection) (c1 c2 : cond)
    (order : option (option string)) (lim : limit_clause) (rows : list row) :
  well_formed c1 = well_formed c2 ->
  (forall r, holds c1 r = holds c2 r) ->
  run_select sel c1 order lim rows = run_select sel c2 order lim rows.
Proof.
  intros Hwf Hholds. unfold run_select. rewrite Hwf.
  rewrite (filter_ext _ _ Hholds). reflexivity.
Qed.

Lemma ilike_text_lower (x a b : string) :
  lower a = lower b ->
  ilike_text x ("%" ++ a ++ "%") = ilike_text x ("%" ++ b ++ "%").
Proof.
  intros H. unfold ilike_text. rewrite !lower_app, H. reflexivity.
Qed.

Lemma search_condition_lower (t : table) (a b : string) (r : row) :
  lower a = lower b ->
  holds (search_condition t a) r = holds (search_condition t b) r.
Proof.
  intros H. unfold search_condition. simpl.
  destruct (field t "fullName"), (field t "userName"), (field t "email");
    repeat match goal with
           | |- context [cell r ?k] => destruct (cell r k)
           end;
    rewrite ?(ilike_text_lower _ a b H); reflexivity.
Qed.

Lemma search_condition_well_formed (t : table) (a b : string) :
  well_formed (search_condition t a) = well_formed (search_condition t b).
Proof.
  unfold search_condition. simpl.
  destruct (field t "fullName"), (field t "userName"), (field t "email");
    reflexivity.
Qed.

(** X1. The letter case of the query and the white space around it do not
    matter: two requests whose [q] texts have the same trimmed, case-folded
    form, and the same [limit] parameter, get the same answer. *)
Theorem searchUsers_query_normalised (usersTable : table)
    (r1 r2 : request) (s1 s2 : string) (users : list row) :
  lookup "q" (query r1) = Some (QStr s1) ->
  lookup "q" (query r2) = Some (QStr s2) ->
  lookup "limit" (query r1) = lookup "limit" (query r2) ->
  lower (trim s1) = lower (trim s2) ->
  searchUsers usersTable irregular_limit r1 users
  = searchUsers usersTable irregular_limit r2 users.
Proof.
  intros H1 H2 Hlim Hlow.
  assert (Hlen : String.length (trim s1) = String.length (trim s2))
    by (rewrite <- (lower_length (trim s1)), Hlow; apply lower_length).
  assert (Hl : query_param r1 "limit" = query_param r2 "limit")
    by (unfold query_param; now rewrite Hlim).
  unfold searchUsers.
  rewrite !(query_param_text r1 "q" s1 H1), !(query_param_text r2 "q" s2 H2).
  rewrite Hl, Hlen.
  destruct (String.length (trim s2) <? 2)%nat eqn:Hshort.
  - destruct (negb (truthy (Str s1))), (negb (truthy (Str s2))); reflexivity.
  - apply Nat.ltb_ge in Hshort.
    rewrite (trim_empty_query s2 Hshort).
    rewrite <- Hlen in Hshort. rewrite (trim_empty_query s1 Hshort).
    cbv beta iota. change (negb true) with false. cbv iota.
    rewrite (run_select_cond_ext _ (search_condition usersTable (trim s1))
               (search_condition usersTable (trim s2))).
    + reflexivity.
    + apply search_condition_well_formed.
    + intros r. apply search_condition_lower, Hlow.
Qed.

(** What a successful query returns: projections of kept rows, in order. *)
Lemma run_select_returns (sel : selection) (c : cond)
    (order : option (option string)) (lim : limit_clause)
    (rows found : list row) :
  run_select sel c order lim rows = Return found ->
  exists kept,
    found = map (project sel) kept
    /\ (forall r, In r kept -> In r rows /\ holds c r = true)
    /\ (List.length kept <= List.length rows)%nat
    /\ (forall k, order = Some (Some k) ->
          Sorted (fun a b => row_le k a b = true) kept).
Proof.
  unfold run_select, apply_limit.
  destruct (negb (selection_ok sel)); [discriminate | ].
  destruct (negb (well_formed c)); [discriminate | ].
  assert (Hlen : (List.length (filter (holds c) rows) <= List.length rows)%nat).
  { induction rows as [ | r rows IH]; simpl; [lia | ].
    destruct (holds c r); simpl; lia. }
  destruct order as [[k | ] | ]; simpl; try discriminate;
    destruct lim as [ | n | ]; simpl; try discriminate;
    intros H; injection H as <-; eexists; (split; [reflexivity | ]).
  - split; [ | split].
    + intros r Hr. apply order_by_In in Hr. now apply filter_In in Hr.
    + now rewrite order_by_length.
    + intros k' Hk'. injection Hk' as <-. apply order_by_Sorted.
  - split; [ | split].
    + intros r Hr. apply In_firstn, order_by_In in Hr.
      now apply filter_In in Hr.
    + rewrite length_firstn, order_by_length. lia.
    + intros k' Hk'. injection Hk' as <-.
      apply Sorted_firstn, order_by_Sorted.
  - split; [ | split].
    + intros r Hr. now apply filter_In in Hr.
    + exact Hlen.
    + intros k' Hk'. discriminate.
  - split; [ | split].
    + intros r Hr. apply In_firstn in Hr. now apply filter_In in Hr.
    + rewrite length_firstn. lia.
    + intros k' Hk'. discriminate.
Qed.

Lemma search_condition_columns (t : string) (r : row) :
  holds (search_condition Schema.usersTable t) r
  = ilike_columns ("%" ++ t ++ "%") r.
Proof.
  change (search_condition Schema.usersTable t) with
    (or [ ilike (Some "fullName") ("%" ++ t ++ "%");
          ilike (Some "userName") ("%" ++ t ++ "%");
          ilike (Some "email") ("%" ++ t ++ "%") ]).
  unfold ilike_columns, ilike_cell. simpl. rewrite orb_false_r.
  now rewrite orb_assoc.
Qed.

(** X2. Whatever the query and the limit, a successful answer of
    [searchUsers] lists stored rows only: each object is built from a stored
    row one of whose cells [fullName], [userName], [email] is a text that
    matches the ILIKE pattern [%q%] for the trimmed query [q]; it has
    exactly the keys [id], [fullName], [username], [email], [avatarUrl] and
    [bio]; the list is in ascending order of [fullName] and is never longer
    than the table. *)
Theorem searchUsers_response_shape (req : request) (users : list row)
    (resp : response) :
  searchUsers Schema.usersTable irregular_limit req users = Return resp ->
  exists s stored,
    lookup "q" (query req) = Some (QStr s)
    /\ resp = respond 200 (Arr (map (fun r => Obj (search_row r)) stored))
                "Users found successfully"
    /\ (forall r, In r stored ->
          In r users /\ ilike_columns ("%" ++ trim s ++ "%") r = true)
    /\ Sorted (fun a b => row_le "fullName" a b = true) stored
    /\ (List.length stored <= List.length users)%nat.
Proof.
  unfold searchUsers.
  destruct (negb (truthy (query_param req "q"))); [discriminate | ].
  destruct (query_param req "q") as [ | | b | z | s | items | fields] eqn:Hq;
    try discriminate.
  destruct (String.length (trim s) <? 2)%nat; [discriminate | ].
  match goal with
  | |- context [run_select ?sel ?c ?o ?lim users] =>
      destruct (run_select sel c o lim users) as [found | e] eqn:Hrun
  end; simpl; [ | discriminate].
  intros H. injection H as <-.
  apply run_select_returns in Hrun as (kept & -> & Hin & Hlen & Hsorted).
  exists s, kept. split; [now apply query_param_is_text | ].
  split; [ | split; [ | split; [ | exact Hlen]]].
  - rewrite map_map. reflexivity.
  - intros r Hr. destruct (Hin r Hr) as [Hu Hh]. split; [exact Hu | ].
    pose proof (search_condition_columns (trim s) r) as E.
    rewrite Hh in E. symmetry. exact E.
  - apply (Hsorted "fullName"). reflexivity.
Qed.












End SearchBehaviour.

(** ** The profile reads: parameter checks *)

Section ReadChecks.
Import UsersController Spec Behaviour.

Lemma first_row_not_400 (sel : selection) (c : cond) (users : list row)
    (msg : string) :
  ~ validation_error
      (rows <- run_select sel c None (Limit 1) users ;;
       match rows with
       | [] => Throw (ApiError 404 "User not found")
       | user :: _ => Return (respond 200 (Obj user) msg)
       end).
Proof.
  intros (m & H).
  destruct (run_select sel c None (Limit 1) users) as [rows | e] eqn:Hrun;
    simpl in H.
  - destruct rows; discriminate.
  - injection H as ->. eapply run_select_no_api_error; eassumption.
Qed.

(** X6. [getUserProfileByUsername] throws the 400 error exactly when the
    [userName] query parameter is absent or is the empty text, whatever the
    table declares and holds. *)
Theorem getUserProfileByUsername_validation (usersTable : table)
    (req : request) (users : list row) :
  validation_error (getUserProfileByUsername usersTable req users) <->
  lookup "userName" (query req) = None
  \/ lookup "userName" (query req) = Some (QStr "").
Proof.
  unfold getUserProfileByUsername, query_param.
  destruct (lookup "userName" (query req)) as [[s | items | fields] | ];
    simpl.
  - destruct s as [ | a s]; simpl.
    + split; [auto | ]. intros _. eexists. reflexivity.
    + split; [ | intros [H | H]; discriminate].
      intros H. exfalso. revert H. apply first_row_not_400.
  - split; [ | intros [H | H]; discriminate].
    intros H. exfalso. revert H. apply first_row_not_400.
  - split; [ | intros [H | H]; discriminate].
    intros H. exfalso. revert H. apply first_row_not_400.
  - split; [auto | ]. intros _. eexists. reflexivity.
Qed.

(** X7. [getUserProfile] throws the 400 error exactly when the [userId]
    route parameter is absent or is the empty text. *)
Theorem getUserProfile_validation (usersTable : table) (req : request)
    (users : list row) :
  validation_error (getUserProfile usersTable req users) <->
  lookup "userId" (params req) = None
  \/ lookup "userId" (params req) = Some "".
Proof.
  unfold getUserProfile, route_param.
  destruct (lookup "userId" (params req)) as [s | ]; simpl.
  - destruct s as [ | a s]; simpl.
    + split; [auto | ]. intros _. eexists. reflexivity.
    + split; [ | intros [H | H]; discriminate].
      intros H. exfalso. revert H. apply first_row_not_400.
  - split; [auto | ]. intros _. eexists. reflexivity.
Qed.

End ReadChecks.

(** ** The writes: whose rows and which cells *)

Section WriteBehaviour.
Import UsersController Spec Behaviour.

Variable usersTable : table.
Variable now : Z.
Variable uploadBufferToCloudinary :
  string -> list (string * value) -> result value.

Lemma str_eqb_text (v : value) (s : string) :
  str_eqb v (Str s) = true -> v = Str s.
Proof.
  destruct v; simpl; try discriminate.
  intros H. apply String.eqb_eq in H. now subst.
Qed.

Lemma Forall2_same {A : Type} (R : A -> A -> Prop) (l : list A) :
  (forall x, R x x) -> Forall2 R l l.
Proof. intros H. induction l; constructor; auto. Qed.

(** An update filtered on [id] leaves the rows of other identifiers as
    they are. *)
Lemma run_update_confined (set : list (string * value)) (uid : string)
    (ret : option selection) (rows : list row) :
  Forall2 (fun r r' => cell r "id" <> Str uid -> r' = r) rows
    (snd (run_update usersTable set
            (eq (field usersTable "id") (Str uid)) ret rows)).
Proof.
  unfold run_update.
  destruct (defined_entries set) as [ | e es];
    [apply Forall2_same; auto | ].
  destruct (negb match ret with
                 | Some sel => selection_ok sel
                 | None => true
                 end); [apply Forall2_same; auto | ].
  destruct (negb (well_formed (eq (field usersTable "id") (Str uid))));
    [apply Forall2_same; auto | ].
  cbn [snd].
  induction rows as [ | r rows IH]; cbn [map]; constructor; [ | exact IH].
  intros Hother.
  destruct (holds (eq (field usersTable "id") (Str uid)) r) eqn:Hh;
    [ | reflexivity].
  exfalso. apply Hother. simpl in Hh.
  unfold field in Hh. destruct (declared usersTable "id"); [ | discriminate].
  now apply str_eqb_text.
Qed.

Lemma snd_updateUserProfile (req : request) (users : list row) :
  snd (updateUserProfile usersTable now req users)
  = snd (run_update usersTable (profile_set now req)
           (eq (field usersTable "id") (Str (user_id req)))
           (Some [ ("fullName", field usersTable "fullName");
                   ("userName", field usersTable "userName");
                   ("bio", field usersTable "bio");
                   ("location", field usersTable "location");
                   ("socialLinks", field usersTable "socialLinks");
                   ("skills", field usersTable "skills");
                   ("interests", field usersTable "interests") ])
           users).
Proof.
  unfold updateUserProfile.
  match goal with
  | |- context [run_update ?t ?s ?c ?ret ?rows] =>
      destruct (run_update t s c ret rows) as [[[ | ? ?] | ?] ?]
  end; reflexivity.
Qed.

Lemma snd_updateUserRole (req : request) (users : list row) :
  snd (updateUserRole usersTable now req users)
  = snd (run_update usersTable
           [ ("role", get "role" (body req)); ("updatedAt", Num now) ]
           (eq (field usersTable "id") (Str (user_id req)))
           (Some [ ("id", field usersTable "id");
                   ("fullName", field usersTable "fullName");
                   ("userName", field usersTable "userName");
                   ("role", field usersTable "role") ])
           users).
Proof.
  unfold updateUserRole.
  match goal with
  | |- context [run_update ?t ?s ?c ?ret ?rows] =>
      destruct (run_update t s c ret rows) as [[[ | ? ?] | ?] ?]
  end; reflexivity.
Qed.

(** The table after [uploadProfileImage]: untouched, or the result of its
    one update. *)
Lemma snd_uploadProfileImage (req : request) (users : list row) :
  snd (uploadProfileImage usersTable now uploadBufferToCloudinary req users)
  = users
  \/ exists secure_url,
       snd (uploadProfileImage usersTable now uploadBufferToCloudinary
              req users)
       = snd (run_update usersTable [ ("avatarUrl", secure_url) ]
                (eq (field usersTable "id") (Str (user_id req))) None users).
Proof.
  unfold uploadProfileImage.
  destruct (file req) as [buffer | ]; [ | now left].
  destruct (uploadBufferToCloudinary buffer (upload_options now req))
    as [res | e]; [ | now left].
  destruct (member res "secure_url") as [secure_url | e]; [ | now left].
  right. exists secure_url.
  match goal with
  | |- context [run_update ?t ?s ?c ?ret ?rows] =>
      destruct (run_update t s c ret rows) as [[? | ?] ?]
  end; reflexivity.
Qed.

(** X8. The three writing handlers change rows of the caller only: after
    [updateUserProfile], [updateUserRole] or [uploadProfileImage] the table
    has the same rows in the same order, and every row whose [id] is not
    the caller's is exactly as before, whatever the request carries. *)
Theorem writes_confined_to_caller (req : request) (users : list row) :
  let untouched :=
    Forall2 (fun r r' => ~ own_row req r -> r' = r) users in
  untouched (snd (updateUserProfile usersTable now req users))
  /\ untouched (snd (updateUserRole usersTable now req users))
  /\ untouched
       (snd (uploadProfileImage usersTable now uploadBufferToCloudinary
               req users)).
Proof.
  cbv zeta. unfold own_row. split; [ | split].
  - rewrite snd_updateUserProfile. apply run_update_confined.
  - rewrite snd_updateUserRole. apply run_update_confined.
  - destruct (snd_uploadProfileImage req users) as [-> | (v & ->)].
    + apply Forall2_same. auto.
    + apply run_update_confined.
Qed.

Lemma Forall2_weaken {A B : Type} (R Q : A -> B -> Prop) (l : list A)
    (l' : list B) :
  (forall a b, R a b -> Q a b) -> Forall2 R l l' -> Forall2 Q l l'.
Proof. intros H. induction 1; constructor; auto. Qed.

(** X9. [updateUserRole] writes no cell other than [role] and
    [updatedAt], whatever the table declares and the body carries. *)
Theorem updateUserRole_frame (req : request) (users : list row) :
  Forall2 (fun r r' => forall k, k <> "role" -> k <> "updatedAt" ->
                                 cell r' k = cell r k)
          users (snd (updateUserRole usersTable now req users)).
Proof.
  rewrite snd_updateUserRole.
  eapply Forall2_weaken;
    [ | apply (run_update_frame usersTable _ _ _ users
                 (fun k => negb (String.eqb k "role")
                           && negb (String.eqb k "updatedAt")))].
  - intros r r' H k Hrole Hupd. apply H.
    apply String.eqb_neq in Hrole, Hupd. now rewrite Hrole, Hupd.
  - intros k Hk. apply andb_true_iff in Hk as [H1 H2].
    apply negb_true_iff in H1, H2. simpl. now rewrite H1, H2.
Qed.

(** X10. [uploadProfileImage] writes no cell other than [avatarUrl], and
    without a file it throws the 400 error "No file uploaded" and leaves
    the table as it is, without regard to the storage collaborator. *)
Theorem uploadProfileImage_frame (req : request) (users : list row) :
  Forall2 (fun r r' => forall k, k <> "avatarUrl" -> cell r' k = cell r k)
          users
          (snd (uploadProfileImage usersTable now uploadBufferToCloudinary
                  req users))
  /\ (file req = None ->
      uploadProfileImage usersTable now uploadBufferToCloudinary req users
      = (Throw (ApiError 400 "No file uploaded"), users)).
Proof.
  split.
  - destruct (snd_uploadProfileImage req users) as [-> | (v & ->)].
    + apply Forall2_same. reflexivity.
    + eapply Forall2_weaken;
        [ | apply (run_update_frame usersTable _ _ _ users
                     (fun k => negb (String.eqb k "avatarUrl")))].
      * intros r r' H k Hk. apply H.
        apply String.eqb_neq in Hk. now rewrite Hk.
      * intros k Hk. apply negb_true_iff in Hk. simpl. now rewrite Hk.
  - intros Hfile. unfold uploadProfileImage. now rewrite Hfile.
Qed.

End WriteBehaviour.

(** ** uploadProfileImage: no existence check *)

Section UploadBehaviour.
Import UsersController Spec Behaviour.

(** X11. [uploadProfileImage] does not check that the caller is stored:
    when no row has the caller's [id] and the upload resolves with a URL,
    the handler still answers 200 "Profile image updated" with that URL,
    and the table is unchanged. *)
Theorem uploadProfileImage_unknown_caller (now : Z)
    (uploadBufferToCloudinary : string -> list (string * value) -> result value)
    (req : request) (users : list row) (buffer : string) (res : value)
    (url : string) :
  file req = Some buffer ->
  uploadBufferToCloudinary buffer (upload_options now req) = Return res ->
  member res "secure_url" = Return (Str url) ->
  Forall (fun r => ~ own_row req r) users ->
  uploadProfileImage Schema.usersTable now uploadBufferToCloudinary req users
  = (Return (respond 200 (Obj [ ("avatarUrl", Str url) ])
               "Profile image updated"), users).
Proof.
  intros Hfile Hup Hmem Hnone.
  unfold uploadProfileImage. rewrite Hfile, Hup, Hmem.
  unfold run_update. simpl. f_equal.
  induction Hnone as [ | r rows Hr _ IH]; simpl; [reflexivity | ].
  rewrite IH. f_equal.
  destruct (str_eqb (cell r "id") (Str (user_id req))) eqn:Hid;
    [ | reflexivity].
  exfalso. apply Hr. unfold own_row.
  destruct (cell r "id"); simpl in Hid; try discriminate.
  apply String.eqb_eq in Hid. now subst.
Qed.

End UploadBehaviour.

(** ** The errors the handlers throw *)

Section ErrorCodes.
Import UsersController Spec Behaviour.

Lemma run_update_no_api_error (t : table) (set : list (string * value))
    (c : cond) (ret : option selection) (rows : list row) :
  api_error_code (fst (run_update t set c ret rows)) = None.
Proof.
  unfold run_update.
  destruct (defined_entries set); [reflexivity | ].
  destruct (negb match ret with
                 | Some sel => selection_ok sel
                 | None => true
                 end); [reflexivity | ].
  destruct (negb (well_formed c)); reflexivity.
Qed.

Lemma run_select_error_code (sel : selection) (c : cond)
    (order : option (option string)) (lim : limit_clause) (rows : list row) :
  api_error_code (run_select sel c order lim rows) = None.
Proof.
  destruct (run_select sel c order lim rows) as [found | [code msg | | ]] eqn:H;
    try reflexivity.
  exfalso. eapply run_select_no_api_error. eassumption.
Qed.

(** X12. The only [ApiError] statuses the handlers throw: 400 or 500 from
    [uploadProfileImage], 404 from [updateUserProfile] and
    [updateUserRole], 400 or 404 from the two profile reads, 400 from
    [searchUsers]; whatever the table, the collaborators and the request. *)
Theorem handler_error_codes (usersTable : table) (now : Z)
    (uploadBufferToCloudinary : string -> list (string * value) -> result value)
    (irregular_limit : option Z -> limit_clause)
    (req : request) (users : list row) (code : Z) :
  (api_error_code
     (fst (uploadProfileImage usersTable now uploadBufferToCloudinary
             req users)) = Some code -> code = 400%Z \/ code = 500%Z)
  /\ (api_error_code (fst (updateUserProfile usersTable now req users))
      = Some code -> code = 404%Z)
  /\ (api_error_code (fst (updateUserRole usersTable now req users))
      = Some code -> code = 404%Z)
  /\ (api_error_code (getUserProfileByUsername usersTable req users)
      = Some code -> code = 400%Z \/ code = 404%Z)
  /\ (api_error_code (getUserProfile usersTable req users)
      = Some code -> code = 400%Z \/ code = 404%Z)
  /\ (api_error_code (searchUsers usersTable irregular_limit req users)
      = Some code -> code = 400%Z).
Proof.
  repeat split.
  - unfold uploadProfileImage.
    destruct (file req) as [buffer | ];
      [ | simpl; intros H; injection H as <-; auto].
    destruct (uploadBufferToCloudinary buffer (upload_options now req))
      as [res | e]; [ | simpl; intros H; injection H as <-; auto].
    destruct (member res "secure_url") as [v | e] eqn:Hm.
    + match goal with
      | |- context [run_update ?t ?s ?c ?ret ?rows] =>
          pose proof (run_update_no_api_error t s c ret rows) as Hno;
          destruct (run_update t s c ret rows) as [[? | ?] ?]
      end; simpl in *; [discriminate | congruence].
    + destruct res; simpl in Hm; try discriminate;
        injection Hm as <-; discriminate.
  - unfold updateUserProfile.
    match goal with
    | |- context [run_update ?t ?s ?c ?ret ?rows] =>
        pose proof (run_update_no_api_error t s c ret rows) as Hno;
        destruct (run_update t s c ret rows) as [[[ | ? ?] | ?] ?]
    end; simpl in *; intros H; try discriminate; congruence.
  - unfold updateUserRole.
    match goal with
    | |- context [run_update ?t ?s ?c ?ret ?rows] =>
        pose proof (run_update_no_api_error t s c ret rows) as Hno;
        destruct (run_update t s c ret rows) as [[[ | ? ?] | ?] ?]
    end; simpl in *; intros H; try discriminate; congruence.
  - unfold getUserProfileByUsername.
    destruct (negb (truthy (query_param req "userName")));
      [simpl; intros H; injection H as <-; auto | ].
    match goal with
    | |- context [run_select ?sel ?c ?o ?lim ?rows] =>
        pose proof (run_select_error_code sel c o lim rows) as Hno;
        destruct (run_select sel c o lim rows) as [[ | ? ?] | ?]
    end; simpl in *; intros H; try discriminate; try congruence;
      injection H as <-; auto.
  - unfold getUserProfile.
    destruct (negb (truthy (route_param req "userId")));
      [simpl; intros H; injection H as <-; auto | ].
    match goal with
    | |- context [run_select ?sel ?c ?o ?lim ?rows] =>
        pose proof (run_select_error_code sel c o lim rows) as Hno;
        destruct (run_select sel c o lim rows) as [[ | ? ?] | ?]
    end; simpl in *; intros H; try discriminate; try congruence;
      injection H as <-; auto.
  - unfold searchUsers.
    destruct (negb (truthy (query_param req "q")));
      [simpl; intros H; now injection H as <- | ].
    destruct (query_param req "q"); simpl; try discriminate.
    destruct (String.length (trim s) <? 2)%nat;
      [simpl; intros H; now injection H as <- | ].
    match goal with
    | |- context [run_select ?sel ?c ?o ?lim ?rows] =>
        pose proof (run_select_error_code sel c o lim rows) as Hno;
        destruct (run_select sel c o lim rows) as [? | ?]
    end; simpl in *; intros H; try discriminate; congruence.
Qed.

End ErrorCodes.

(** ** The team router: matching and middleware order *)

Section RouterBehaviour.
Import TeamsRoute Behaviour.

Ltac split_matches :=
  repeat match goal with
         | H : (_ && _)%bool = true |- _ => apply andb_true_iff in H as [? ?]
         end;
  repeat match goal with
         | H : String.eqb _ _ = true |- _ => apply String.eqb_eq in H
         end.

Lemma routes_exclusive (r1 r2 : route) (m : method) (url : list string) :
  In r1 router -> In r2 router ->
  route_matches r1 m url = true -> route_matches r2 m url = true ->
  r1 = r2.
Proof.
  intros H1 H2. simpl in H1, H2.
  repeat (destruct H1 as [<- | H1]); try contradiction;
    repeat (destruct H2 as [<- | H2]); try contradiction;
    try reflexivity;
    unfold route_matches;
    destruct m; cbn [verb path method_eqb andb]; try discriminate;
    destruct url as [ | a [ | b [ | c [ | d l]]]];
    cbn [path_matches segment_matches andb]; try discriminate;
    intros M1 M2; split_matches; simpl in *; congruence.
Qed.

(** X13. No two registrations match the same request, paths being matched
    without regard to letter case, so the order of the registrations is
    immaterial: [dispatch] finds a route exactly when it is registered and
    matches. *)
Theorem dispatch_order_immaterial (m : method) (url : list string)
    (r : route) :
  dispatch m url = Some r <-> In r router /\ route_matches r m url = true.
Proof.
  unfold dispatch. split.
  - intros H. apply find_some in H. exact H.
  - intros [Hin Hm].
    destruct (find (fun r0 => method_eqb (verb r0) m
                              && path_matches (path r0) url) router)
      as [r' | ] eqn:Hfind.
    + apply find_some in Hfind as [Hin' Hm'].
      f_equal. apply (routes_exclusive r' r m url); assumption.
    + pose proof (find_none _ _ Hfind r Hin) as Hno.
      unfold route_matches in Hm. simpl in Hno. congruence.
Qed.

(** X14. Schema validation guards [createTeam] and [updateTeamInfo] and
    comes after authentication: each of the two controllers is reached only
    when the token is verified and its schema accepts the request, and a
    request stopped by a validator has a verified token. *)
Theorem validation_after_authentication (pass : middleware -> bool)
    (m : method) (url : list string) :
  (serve pass m url = Handled createTeam ->
   pass verifyJWT = true /\ pass (validate createTeamSchema) = true)
  /\ (serve pass m url = Handled updateTeamInfo ->
      pass verifyJWT = true /\ pass (validate updateTeamSchema) = true)
  /\ (forall schema, serve pass m url = StoppedBy (validate schema) ->
        pass verifyJWT = true).
Proof.
  unfold serve.
  destruct (dispatch m url) as [r | ] eqn:Hd;
    [ | repeat split; intros; discriminate].
  apply dispatch_in_router in Hd. simpl in Hd.
  repeat (destruct Hd as [<- | Hd]); try contradiction; simpl;
    destruct (pass verifyJWT) eqn:Hjwt; simpl;
    try destruct (pass (validate createTeamSchema)) eqn:Hc; simpl;
    try destruct (pass (validate updateTeamSchema)) eqn:Hu; simpl;
    repeat split; intros; try discriminate; auto.
Qed.

(** X15. The disabled registrations leave gaps: no request deletes a team
    ([DELETE /:teamId] matches nothing), and [GET /:teamId/members] matches
    nothing unless the team identifier is the word [hackathon] in any
    letter case, in which case [getTeamsByHackathon] answers, whatever the
    middleware would say. *)
Theorem disabled_routes (pass : middleware -> bool) (a : ascii) (s : string) :
  serve pass DELETE [String a s] = NoRoute
  /\ serve pass GET [String a s; "members"]
     = if String.eqb (fold_case (String a s)) "hackathon"
       then Handled getTeamsByHackathon
       else NoRoute.
Proof.
  split; [reflexivity | ].
  unfold serve, dispatch.
  cbn [router find verb path method_eqb path_matches segment_matches andb].
  change (fold_case "hackathon") with "hackathon".
  change (fold_case "user") with "user".
  change (fold_case "my-teams") with "my-teams".
  change (fold_case "members") with "members".
  rewrite (String.eqb_sym (fold_case (String a s)) "hackathon").
  destruct (String.eqb "hackathon" (fold_case (String a s))) eqn:Hh.
  - reflexivity.
  - cbn [andb].
    destruct (String.eqb "user" (fold_case (String a s))); reflexivity.
Qed.

End RouterBehaviour.

(** ** The profile handlers on the declared table, for every request *)

Section DeclaredTableOutcomes.
Import UsersController Spec Behaviour.

(** X16. On the declared table [getUserProfileByUsername] has two outcomes
    only, and the store has no part in them: the 400 error when the
    [userName] parameter is absent or empty, and otherwise the [TypeError]
    of the query builder, whose selection holds keys the table object
    lacks.  It never answers 200 or 404. *)
Theorem getUserProfileByUsername_declared (req : request) (users : list row) :
  getUserProfileByUsername Schema.usersTable req users
  = match lookup "userName" (query req) with
    | None | Some (QStr EmptyString) =>
        Throw (ApiError 400 "Username query parameter is required")
    | Some _ => Throw undefined_column
    end.
Proof.
  unfold getUserProfileByUsername, query_param.
  destruct (lookup "userName" (query req)) as [[s | items | fields] | ];
    try reflexivity.
  destruct s; reflexivity.
Qed.

(** X17. On the declared table [getUserProfile] has two outcomes only, and
    the store has no part in them: the 400 error when the [userId]
    parameter is absent or empty, and otherwise the [TypeError] of the
    query builder.  It never answers 200 or 404. *)
Theorem getUserProfile_declared (req : request) (users : list row) :
  getUserProfile Schema.usersTable req users
  = match lookup "userId" (params req) with
    | None | Some EmptyString => Throw (ApiError 400 "User ID is required")
    | Some _ => Throw undefined_column
    end.
Proof.
  unfold getUserProfile, route_param.
  destruct (lookup "userId" (params req)) as [s | ]; try reflexivity.
  destruct s; reflexivity.
Qed.

(** X18. On the declared table [updateUserProfile] throws the [TypeError]
    of the query builder for every request, stored caller or not, and the
    table is as it was: no body changes a cell, and the 404 for an unknown
    caller is never given. *)
Theorem updateUserProfile_declared (now : Z) (req : request)
    (users : list row) :
  updateUserProfile Schema.usersTable now req users
  = (Throw undefined_column, users)
  /\ api_error_code (fst (updateUserProfile Schema.usersTable now req users))
     = None.
Proof. split; reflexivity. Qed.

End DeclaredTableOutcomes.

(** ** Concrete requests for the further behaviour *)

Section MoreConcrete.
Import UsersController Spec Behaviour Samples.

Lemma searchUsers_query_normalised_witness :
  searchUsers Schema.usersTable unlimited
    (mkRequest "u2" None [] [ ("q", QStr "  ALI") ] []) users
  = searchUsers Schema.usersTable unlimited
      (mkRequest "u2" None [] [ ("q", QStr "ali ") ] []) users.
Proof.
  apply (searchUsers_query_normalised unlimited Schema.usersTable
           (mkRequest "u2" None [] [ ("q", QStr "  ALI") ] [])
           (mkRequest "u2" None [] [ ("q", QStr "ali ") ] [])
           "  ALI" "ali " users); reflexivity.
Defined.

Lemma searchUsers_response_shape_witness :
  exists resp,
    searchUsers Schema.usersTable unlimited
      (mkRequest "u2" None [] [ ("q", QStr "b_"); ("limit", QStr "-1") ] [])
      users = Return resp
    /\ exists s stored,
         lookup "q" [ ("q", QStr "b_"); ("limit", QStr "-1") ]
         = Some (QStr s)
         /\ resp = respond 200 (Arr (map (fun r => Obj (search_row r)) stored))
                     "Users found successfully"
         /\ (forall r, In r stored ->
               In r users /\ ilike_columns ("%" ++ trim s ++ "%") r = true)
         /\ Sorted (fun a b => row_le "fullName" a b = true) stored
         /\ (List.length stored <= List.length users)%nat.
Proof.
  eexists. split; [reflexivity | ].
  apply (searchUsers_response_shape unlimited
           (mkRequest "u2" None []
              [ ("q", QStr "b_"); ("limit", QStr "-1") ] []) users).
  reflexivity.
Defined.



Lemma uploadProfileImage_unknown_caller_witness :
  uploadProfileImage Schema.usersTable 5 storage_ok
    (mkRequest "u9" (Some "PNG-bytes") [] [] []) users
  = (Return (respond 200
               (Obj [ ("avatarUrl", Str "https://cdn.example/user_u9_5") ])
               "Profile image updated"), users).
Proof.
  apply (uploadProfileImage_unknown_caller 5 storage_ok
           (mkRequest "u9" (Some "PNG-bytes") [] [] []) users "PNG-bytes"
           (Obj [ ("secure_url", Str "https://cdn.example/user_u9_5") ])
           "https://cdn.example/user_u9_5").
  - reflexivity.
  - reflexivity.
  - reflexivity.
  - repeat constructor; discriminate.
Defined.

(** A small-letter query finds the name written with the Latin-1 capital. *)
Example searchUsers_latin1_query :
  rows_returned
    (searchUsers Schema.usersTable unlimited
       (mkRequest "u2" None [] [ ("q", QStr emile_query) ] [])
       (emile :: users))
  = [ Obj (search_row emile) ].
Proof. reflexivity. Qed.

(** A limit beyond the safe integers is left to the query layer; one that
    rejects it makes the handler fail, and the failure is no [ApiError]. *)
Example searchUsers_huge_limit :
  searchUsers Schema.usersTable rejecting
    (mkRequest "u2" None []
       [ ("q", QStr "example"); ("limit", QStr "99999999999999999999") ] [])
    users
  = Throw (Error "query failed").
Proof. reflexivity. Qed.

(** Paths are matched without regard to letter case. *)
Example serve_ignores_case :
  TeamsRoute.serve (fun _ => true) TeamsRoute.GET ["User"; "My-Teams"]
  = TeamsRoute.Handled TeamsRoute.getUserTeams
  /\ TeamsRoute.serve (fun _ => false) TeamsRoute.GET ["HACKATHON"; "members"]
     = TeamsRoute.Handled TeamsRoute.getTeamsByHackathon
  /\ TeamsRoute.serve (fun _ => false) TeamsRoute.POST ["t1"; "JOIN"]
     = TeamsRoute.StoppedBy TeamsRoute.verifyJWT.
Proof. repeat split. Qed.

End MoreConcrete.
